(** * trader2: the streaming signal engine, embedded and verified

    A shallow embedding of the Python sources
      - [indicator_calculator.py]  (RSI, pivot flags),
      - [signal_detector.py]       (confidence score, divergence detector),
      - [live_data_collector.py]   (minute bars folded into 5-minute candles),
      - [live_trader.py]           (position sizing),
    followed by the properties of the design document, each stated on the
    embedded code.

    Numbers.  Prices, volumes and moving averages are Python floats; they are
    modelled as exact rationals [Q], so rounding error and infinities are
    outside the model.  A column that pandas may leave undefined (RSI, ATR,
    the result of [diff] and of [rolling(...).mean()]) is an [option Q] whose
    [None] is NaN: arithmetic propagates it and every comparison with it is
    false, as in IEEE arithmetic.  Indices are Python ints, hence [Z];
    [Series.iloc] accepts negative positions and raises outside the series,
    which is modelled by [option].  Window sizes and periods from the
    configuration are bar counts, hence [nat]. *)

From Stdlib Require Import ZArith QArith Qround Qabs List Bool Lia Lqa.
Import ListNotations.

Open Scope Z_scope.

(* ------------------------------------------------------------------------- *)
(** * Python and pandas primitives *)

Module Py.

(** [x < y] on floats. *)
Definition Qltb (x y : Q) : bool := negb (Qle_bool y x).

(** [len(s)] as a Python int. *)
Definition len {A} (s : list A) : Z := Z.of_nat (length s).

(** [s.iloc[i]]: positions [0 .. len-1], or [-len .. -1] counted from the
    end; [None] stands for the [IndexError] raised anywhere else. *)
Definition iloc {A} (s : list A) (i : Z) : option A :=
  if (0 <=? i) && (i <? len s) then nth_error s (Z.to_nat i)
  else if (- len s <=? i) && (i <? 0) then nth_error s (Z.to_nat (len s + i))
  else None.

(** [range(start, stop)]. *)
Definition range (start stop : Z) : list Z :=
  map (fun k => start + Z.of_nat k) (seq 0 (Z.to_nat (stop - start))).

(** [max(a, b)] and [min(a, b)] of the builtins: the first argument is
    kept unless the second is strictly better. *)
Definition max (a b : Q) : Q := if Qltb a b then b else a.
Definition min (a b : Q) : Q := if Qltb b a then b else a.

(** [round(x)] to the nearest integer, ties to the even one. *)
Definition round_half_even (x : Q) : Z :=
  let f := Qfloor x in
  let r := (x - inject_Z f)%Q in
  if Qltb r (1 # 2) then f
  else if Qltb (1 # 2) r then f + 1
  else if Z.even f then f else f + 1.

(** [round(x, 6)]. *)
Definition round6 (x : Q) : Q :=
  (inject_Z (round_half_even (x * 1000000)) / 1000000)%Q.

End Py.

(* ------------------------------------------------------------------------- *)
(** * indicator_calculator.py: pivot flags *)

Module IndicatorCalculator.
Import Py.

(** The body of the [for] loop of [find_pivot_high]: [i != index and
    highs.iloc[i] >= current] returns [False] at once; [and] does not read
    the series when [i] is [index]. *)
Fixpoint pivot_high_scan (highs : list Q) (index : Z) (current : Q)
         (js : list Z) : option bool :=
  match js with
  | [] => Some true
  | i :: js' =>
      if i =? index then pivot_high_scan highs index current js'
      else match iloc highs i with
           | None => None
           | Some h =>
               if Qle_bool current h then Some false
               else pivot_high_scan highs index current js'
           end
  end.

Definition find_pivot_high (highs : list Q) (index : Z) (lookback : nat)
  : option bool :=
  let L := Z.of_nat lookback in
  if (index <? L) || (index >=? len highs - L) then Some false
  else match iloc highs index with
       | None => None
       | Some current =>
           pivot_high_scan highs index current
                           (range (index - L) (index + L + 1))
       end.

(** [find_pivot_low]: the same loop with [lows.iloc[i] <= current]. *)
Fixpoint pivot_low_scan (lows : list Q) (index : Z) (current : Q)
         (js : list Z) : option bool :=
  match js with
  | [] => Some true
  | i :: js' =>
      if i =? index then pivot_low_scan lows index current js'
      else match iloc lows i with
           | None => None
           | Some l =>
               if Qle_bool l current then Some false
               else pivot_low_scan lows index current js'
           end
  end.

Definition find_pivot_low (lows : list Q) (index : Z) (lookback : nat)
  : option bool :=
  let L := Z.of_nat lookback in
  if (index <? L) || (index >=? len lows - L) then Some false
  else match iloc lows index with
       | None => None
       | Some current =>
           pivot_low_scan lows index current
                          (range (index - L) (index + L + 1))
       end.

(** *** calculate_rsi

    The pandas pipeline, column by column.  A column is a list of
    [option Q], [None] being NaN. *)

(** [close_prices.diff()]: NaN first, then the step changes. *)
Fixpoint diff_from (prev : Q) (s : list Q) : list (option Q) :=
  match s with
  | [] => []
  | x :: s' => Some (x - prev)%Q :: diff_from x s'
  end.

Definition diff (s : list Q) : list (option Q) :=
  match s with
  | [] => []
  | x :: s' => None :: diff_from x s'
  end.

(** [delta > 0] and [delta < 0]: false on NaN. *)
Definition gt0 (x : option Q) : bool :=
  match x with Some v => Qltb 0 v | None => false end.
Definition lt0 (x : option Q) : bool :=
  match x with Some v => Qltb v 0 | None => false end.

(** [s.where(cond, other)]: the entry where [cond] holds, [other]
    elsewhere (so the leading NaN of [diff] becomes [other]). *)
Definition where_ (cond : option Q -> bool) (other : Q)
           (s : list (option Q)) : list (option Q) :=
  map (fun x => if cond x then x else Some other) s.

(** Unary minus on a column. *)
Definition neg (s : list (option Q)) : list (option Q) :=
  map (option_map Qopp) s.

(** The sum of a window, NaN as soon as one entry is. *)
Fixpoint window_sum (w : list (option Q)) : option Q :=
  match w with
  | [] => Some 0%Q
  | None :: _ => None
  | Some x :: w' => option_map (Qplus x) (window_sum w')
  end.

(** [s.rolling(window=period).mean()] at position [i]: [min_periods]
    defaults to the window, so the value is NaN until [period] entries are
    there and whenever the window holds a NaN; an empty window has no
    mean. *)
Definition rolling_mean_at (period : nat) (s : list (option Q)) (i : nat)
  : option Q :=
  if ((period =? 0) || (i + 1 <? period))%nat then None
  else option_map (fun t => (t / inject_Z (Z.of_nat period))%Q)
                  (window_sum (firstn period (skipn (i + 1 - period) s))).

Definition rolling_mean (period : nat) (s : list (option Q))
  : list (option Q) :=
  map (rolling_mean_at period s) (seq 0 (length s)).

(** [loss.replace(0, np.nan)]. *)
Definition replace_0_nan (s : list (option Q)) : list (option Q) :=
  map (fun x => match x with
                | Some v => if Qeq_bool v 0 then None else Some v
                | None => None
                end) s.

(** [gain / loss]: positions are aligned; NaN propagates.  The divisor has
    been through [replace_0_nan], so it is never zero. *)
Fixpoint div (a b : list (option Q)) : list (option Q) :=
  match a, b with
  | x :: a', y :: b' =>
      match x, y with
      | Some u, Some v => Some (u / v)%Q
      | _, _ => None
      end :: div a' b'
  | _, _ => []
  end.

Definition calculate_rsi (close_prices : list Q) (period : nat)
  : list (option Q) :=
  let delta := diff close_prices in
  let gain := rolling_mean period (where_ gt0 0 delta) in
  let loss := rolling_mean period (neg (where_ lt0 0 delta)) in
  let rs := div gain (replace_0_nan loss) in
  map (option_map (fun r => 100 - 100 / (1 + r))%Q) rs.

(** *** calculate_atr

    The frame is a list of rows of any record type; [high], [low] and
    [close] read its columns. *)

(** [s.shift()]: every value one position later, NaN first. *)
Definition shift (s : list Q) : list (option Q) :=
  match s with
  | [] => []
  | _ :: _ => None :: map Some (removelast s)
  end.

(** [np.abs(a - b)] where [b] may be NaN. *)
Definition abs_diff (a : Q) (b : option Q) : option Q :=
  option_map (fun c => Qabs (a - c)) b.

(** The greater of two entries of a row, NaN skipped ([max(axis=1)] has
    [skipna=True]); NaN only if both are. *)
Definition nan_max (x y : option Q) : option Q :=
  match x, y with
  | Some a, Some b => Some (Py.max a b)
  | Some a, None => Some a
  | None, Some b => Some b
  | None, None => None
  end.

Section Frame.
Context {R : Type} (high low close : R -> Q).

(** [ranges.max(axis=1)] of the three columns [high_low], [high_close] and
    [low_close]. *)
Definition true_range (df : list R) : list (option Q) :=
  let high_low := map (fun r => Some (high r - low r)%Q) df in
  let prev_close := shift (map close df) in
  let high_close :=
    map (fun hc => abs_diff (fst hc) (snd hc))
        (combine (map high df) prev_close) in
  let low_close :=
    map (fun lc => abs_diff (fst lc) (snd lc))
        (combine (map low df) prev_close) in
  map (fun t => nan_max (nan_max (fst t) (fst (snd t))) (snd (snd t)))
      (combine high_low (combine high_close low_close)).

Definition calculate_atr (df : list R) (period : nat) : list (option Q) :=
  rolling_mean period (true_range df).

End Frame.

(** *** calculate_ema *)

(** The recursion of [ewm(adjust=False).mean()] after its first value. *)
Fixpoint ewm_from (alpha prev : Q) (s : list Q) : list Q :=
  match s with
  | [] => []
  | x :: s' =>
      let y := ((1 - alpha) * prev + alpha * x)%Q in
      y :: ewm_from alpha y s'
  end.

(** [close_prices.ewm(span=period, adjust=False).mean()]; [None] is the
    [ValueError] that pandas raises for a span below 1. *)
Definition calculate_ema (close_prices : list Q) (period : nat)
  : option (list Q) :=
  if (period <? 1)%nat then None
  else
    let alpha := (2 / (inject_Z (Z.of_nat period) + 1))%Q in
    match close_prices with
    | [] => Some []
    | x :: s => Some (x :: ewm_from alpha x s)
    end.

End IndicatorCalculator.

(* ------------------------------------------------------------------------- *)
(** * config.py *)

Module Config.

Record config := {
  MIN_CANDLES_REQUIRED : nat;
  RISK_PER_TRADE : Q;
  MIN_CONFIDENCE : Q;
  PIVOT_LOOKBACK : nat;
  MAX_LOOKBACK_BARS : nat;
  STOP_MULTIPLIER : Q;
  TARGET_1_RR : Q;
  TARGET_2_RR : Q;
  TARGET_3_RR : Q
}.

Definition CONFIG : config := {|
  MIN_CANDLES_REQUIRED := 30;
  RISK_PER_TRADE := 10 # 100;
  MIN_CONFIDENCE := 40 # 100;
  PIVOT_LOOKBACK := 3;
  MAX_LOOKBACK_BARS := 50;
  STOP_MULTIPLIER := 15 # 10;
  TARGET_1_RR := 15 # 10;
  TARGET_2_RR := 25 # 10;
  TARGET_3_RR := 35 # 10
|}.

(** The keys of [CONFIG] that the trading loop reads besides those above. *)
Record settings := {
  RSI_PERIOD : nat;
  ATR_PERIOD : nat;
  EMA_FAST : nat;
  EMA_MID : nat;
  EMA_SLOW : nat;
  LOG_SIGNALS_ONLY : bool
}.

Definition SETTINGS : settings := {|
  RSI_PERIOD := 11;
  ATR_PERIOD := 14;
  EMA_FAST := 20;
  EMA_MID := 50;
  EMA_SLOW := 100;
  LOG_SIGNALS_ONLY := true
|}.

End Config.

(* ------------------------------------------------------------------------- *)
(** * signal_detector.py *)

Module SignalDetector.
Import Py Config.

(** One row of the augmented frame [df]: the candle and its indicator
    columns.  [time] is the index label of the row. *)
Record row := {
  time : Z;
  open : Q; high : Q; low : Q; close : Q; volume : Q;
  rsi : option Q; atr : option Q;
  ema20 : Q; ema50 : Q; ema100 : Q
}.

Definition frame := list row.

Inductive pivot_type := PivotHigh | PivotLow.
Inductive signal_type := BULLISH | BEARISH.

Definition pivot_type_eqb (a b : pivot_type) : bool :=
  match a, b with
  | PivotHigh, PivotHigh | PivotLow, PivotLow => true
  | _, _ => false
  end.

(** The [pivot] dict. *)
Record pivot := {
  p_index : Z;
  p_type : pivot_type;
  p_price : Q;
  p_rsi : option Q;
  p_time : Z
}.

(** The dict returned for a signal. *)
Record signal := {
  s_type : signal_type;
  s_time : Z;
  s_price : Q;
  s_rsi : option Q;
  s_confidence : Q;
  s_atr : option Q;
  s_bars_between : Z
}.

(** The mutable attributes of a [SignalDetector]. *)
Record detector := {
  recent_pivots : list pivot;
  last_signal_time : option Z
}.

(** [__init__]: [signal_cooldown_bars] is set to 10 and never assigned
    again. *)
Definition signal_cooldown_bars : Z := 10.

Definition init : detector :=
  {| recent_pivots := []; last_signal_time := None |}.

(** Comparisons where the left or both sides may be NaN. *)
Definition nan_lt (x y : option Q) : bool :=
  match x, y with Some a, Some b => Qltb a b | _, _ => false end.

Definition calculate_confidence (df : frame) (index : Z) (is_bullish : bool)
  : Q :=
  match iloc df index with
  | None => 0                        (* IndexError, caught: return 0.0 *)
  | Some r =>
      match rsi r, atr r with
      | Some rsi, Some atr =>
          if Qeq_bool atr 0 then 0 else
          let close := close r in
          let ema20 := ema20 r in
          let ema50 := ema50 r in
          let ema100 := ema100 r in
          let confidence := 0 in
          (* TCS *)
          let tcs :=
            if (Qltb ema50 ema20 && Qltb ema100 ema50)
               || (Qltb ema20 ema50 && Qltb ema50 ema100)
            then 4 # 10 else 0 in
          let confidence := confidence + (25 # 100) * (1 - tcs) in
          (* Exhaustion score *)
          let exhaustion := 0 in
          let exhaustion :=
            if Qltb 75 rsi || Qltb rsi 25 then exhaustion + (4 # 10)
            else if Qltb 70 rsi || Qltb rsi 30 then exhaustion + (25 # 100)
            else exhaustion in
          let distance := Qabs (close - ema20) / atr in
          let exhaustion :=
            if Qltb (25 # 10) distance then exhaustion + (3 # 10)
            else if Qltb (15 # 10) distance then exhaustion + (2 # 10)
            else exhaustion in
          let confidence := confidence + (30 # 100) * exhaustion in
          (* RSI extreme bonus *)
          let confidence :=
            if is_bullish && Qltb rsi 30 then confidence + (25 # 100)
            else if is_bullish && Qltb rsi 35 then confidence + (20 # 100)
            else if negb is_bullish && Qltb 70 rsi
                 then confidence + (25 # 100)
            else if negb is_bullish && Qltb 65 rsi
                 then confidence + (20 # 100)
            else confidence in
          (* Pullback quality *)
          let confidence :=
            if Qltb (3 # 10) distance && Qltb distance 2
            then confidence + (10 # 100) else confidence in
          (* DMA *)
          let dma := (ema20 - ema50) / atr in
          let confidence :=
            if is_bullish && Qltb dma 0 then confidence + (10 # 100)
            else if negb is_bullish && Qltb 0 dma
                 then confidence + (10 # 100)
            else confidence in
          Py.min confidence 1
      | _, _ => 0                    (* pd.isna(rsi) or pd.isna(atr) *)
      end
  end%Q.

(** [if self.last_signal_time:] followed by the comparison of
    [len(df) - self.last_signal_time] with the cooldown; [None] and [0] are
    both falsy. *)
Definition cooling_down (self : detector) (n : Z) : bool :=
  match last_signal_time self with
  | None => false
  | Some t => if t =? 0 then false else n - t <? signal_cooldown_bars
  end.

(** The two pattern tests of the loop body. *)
Definition bullish_divergence (pivot prev_pivot : pivot) : bool :=
  pivot_type_eqb (p_type pivot) PivotLow
  && Qltb (p_price pivot) (p_price prev_pivot)
  && nan_lt (p_rsi prev_pivot) (p_rsi pivot)
  && nan_lt (p_rsi pivot) (Some 40%Q).

Definition bearish_divergence (pivot prev_pivot : pivot) : bool :=
  pivot_type_eqb (p_type pivot) PivotHigh
  && Qltb (p_price prev_pivot) (p_price pivot)
  && nan_lt (p_rsi pivot) (p_rsi prev_pivot)
  && nan_lt (Some 60%Q) (p_rsi pivot).

(** The [for prev_pivot in reversed(self.recent_pivots[:-1])] loop and the
    final [return None].  The outer [option] is an exception escaping. *)
Fixpoint divergence_scan (cfg : config) (df : frame) (self : detector)
         (check_index : Z) (pivot : pivot) (prevs : list SignalDetector.pivot)
  : option (option signal * detector) :=
  match prevs with
  | [] => Some (None, self)
  | prev_pivot :: rest =>
      if negb (pivot_type_eqb (p_type prev_pivot) (p_type pivot))
      then divergence_scan cfg df self check_index pivot rest
      else
        let bars_between := p_index pivot - p_index prev_pivot in
        if bars_between <? 8
        then divergence_scan cfg df self check_index pivot rest
        else if bullish_divergence pivot prev_pivot then
          let confidence := calculate_confidence df check_index true in
          if Qle_bool (MIN_CONFIDENCE cfg) confidence then
            match iloc df check_index with
            | None => None
            | Some r =>
                Some (Some {| s_type := BULLISH;
                              s_time := p_time pivot;
                              s_price := p_price pivot;
                              s_rsi := p_rsi pivot;
                              s_confidence := confidence;
                              s_atr := atr r;
                              s_bars_between := bars_between |},
                      {| recent_pivots := recent_pivots self;
                         last_signal_time := Some check_index |})
            end
          else divergence_scan cfg df self check_index pivot rest
        else if bearish_divergence pivot prev_pivot then
          let confidence := calculate_confidence df check_index false in
          if Qle_bool (MIN_CONFIDENCE cfg) confidence then
            match iloc df check_index with
            | None => None
            | Some r =>
                Some (Some {| s_type := BEARISH;
                              s_time := p_time pivot;
                              s_price := p_price pivot;
                              s_rsi := p_rsi pivot;
                              s_confidence := confidence;
                              s_atr := atr r;
                              s_bars_between := bars_between |},
                      {| recent_pivots := recent_pivots self;
                         last_signal_time := Some check_index |})
            end
          else divergence_scan cfg df self check_index pivot rest
        else divergence_scan cfg df self check_index pivot rest
  end.

(** The pivot dict built for the candidate row. *)
Definition make_pivot (check_index : Z) (is_pivot_high : bool) (r : row)
  : pivot :=
  {| p_index := check_index;
     p_type := if is_pivot_high then PivotHigh else PivotLow;
     p_price := if is_pivot_high then high r else low r;
     p_rsi := rsi r;
     p_time := time r |}.

(** [self.recent_pivots.append(pivot)] followed by the pruning
    comprehension. *)
Definition store_pivot (cfg : config) (self : detector) (check_index : Z)
           (pivot : pivot) : detector :=
  {| recent_pivots :=
       filter (fun p => check_index - p_index p
                        <=? Z.of_nat (MAX_LOOKBACK_BARS cfg))
              (recent_pivots self ++ [pivot]);
     last_signal_time := last_signal_time self |}.

Definition detect_signal (cfg : config) (df : frame) (self : detector)
  : option (option signal * detector) :=
  if len df <? 100 then Some (None, self) else
  if cooling_down self (len df) then Some (None, self) else
  let lookback := PIVOT_LOOKBACK cfg in
  let check_index := len df - Z.of_nat lookback - 1 in
  if check_index <? Z.of_nat lookback then Some (None, self) else
  match IndicatorCalculator.find_pivot_high (map high df) check_index lookback
  with
  | None => None
  | Some is_pivot_high =>
  match IndicatorCalculator.find_pivot_low (map low df) check_index lookback
  with
  | None => None
  | Some is_pivot_low =>
      if negb is_pivot_high && negb is_pivot_low then Some (None, self) else
      match iloc df check_index with
      | None => None
      | Some r =>
          let pivot := make_pivot check_index is_pivot_high r in
          let self := store_pivot cfg self check_index pivot in
          divergence_scan cfg df self check_index pivot
                          (rev (removelast (recent_pivots self)))
      end
  end
  end.

(** The caller's loop: [detect_signal] on successive frames, the detector
    carried from one call to the next. *)
Fixpoint run (cfg : config) (dfs : list frame) (self : detector)
  : option (list (option signal) * detector) :=
  match dfs with
  | [] => Some ([], self)
  | df :: dfs' =>
      match detect_signal cfg df self with
      | None => None
      | Some (out, self') =>
          match run cfg dfs' self' with
          | None => None
          | Some (outs, self'') => Some (out :: outs, self'')
          end
      end
  end.

End SignalDetector.

(* ------------------------------------------------------------------------- *)
(** * live_data_collector.py *)

Module LiveDataCollector.

(** A minute bar as [on_bar] stores it in [latest_bar_data].  Timestamps
    are counted in seconds. *)
Record bar := {
  timestamp : Z;
  open : Q; high : Q; low : Q; close : Q; volume : Q
}.

(** The [current_candle] dict. *)
Record working := {
  w_timestamp : Z;
  w_open : Q; w_high : Q; w_low : Q; w_close : Q; w_volume : Q;
  bars_in_candle : Z
}.

(** The [candle_to_save] dict. *)
Record candle := {
  c_timestamp : Z;
  c_open : Q; c_high : Q; c_low : Q; c_close : Q; c_volume : Q
}.

(** The attributes of the collector that the aggregation reads or
    writes. *)
Record collector := {
  candles : list candle;
  current_candle : option working;
  candle_start : option Z;
  interval : Z;
  latest_price : option Q;
  latest_bar_data : option bar
}.

(** [__init__]: [timedelta(minutes=5)]. *)
Definition init : collector :=
  {| candles := []; current_candle := None; candle_start := None;
     interval := 300; latest_price := None; latest_bar_data := None |}.

(** The candle seeded from the latest bar (written twice in the source). *)
Definition seed (b : bar) : working :=
  {| w_timestamp := timestamp b;
     w_open := open b; w_high := high b; w_low := low b;
     w_close := close b; w_volume := volume b;
     bars_in_candle := 1 |}.

(** The in-place update of [current_candle] by one more bar.  Prices and
    volumes are exact rationals; the code adds doubles, so what is stated
    about a rounded volume is stated up to the choice between the two
    nearest 6-decimal values. *)
Definition merge (cur : working) (b : bar) : working :=
  {| w_timestamp := w_timestamp cur;
     w_open := w_open cur;
     w_high := Py.max (w_high cur) (high b);
     w_low := Py.min (w_low cur) (low b);
     w_close := close b;
     w_volume := (w_volume cur + volume b)%Q;
     bars_in_candle := bars_in_candle cur + 1 |}.

Definition set_working (self : collector) (w : working) (start : option Z)
           (cs : list candle) : collector :=
  {| candles := cs; current_candle := Some w; candle_start := start;
     interval := interval self; latest_price := latest_price self;
     latest_bar_data := latest_bar_data self |}.

(** [process_minute_bar].  The body sits in [try/except Exception]: a
    missing [latest_bar_data] or [candle_start] raises [TypeError], which is
    printed and dropped, the updates made before it staying in place. *)
Definition process_minute_bar (self : collector) : collector :=
  match latest_bar_data self with
  | None => self
  | Some b =>
      match current_candle self with
      | None =>
          set_working self (seed b) (Some (timestamp b)) (candles self)
      | Some cur =>
          let cur := merge cur b in
          match candle_start self with
          | None => set_working self cur None (candles self)
          | Some start =>
              let time_diff := timestamp b - start in
              if (interval self <=? time_diff) || (5 <=? bars_in_candle cur)
              then
                let candle_to_save :=
                  {| c_timestamp := start;
                     c_open := w_open cur;
                     c_high := w_high cur;
                     c_low := w_low cur;
                     c_close := w_close cur;
                     c_volume := Py.round6 (w_volume cur) |} in
                set_working self (seed b) (Some (timestamp b))
                            (candles self ++ [candle_to_save])
              else set_working self cur (Some start) (candles self)
          end
      end
  end.

(** [on_bar]: record the bar, then aggregate. *)
Definition on_bar (self : collector) (b : bar) : collector :=
  process_minute_bar
    {| candles := candles self; current_candle := current_candle self;
       candle_start := candle_start self; interval := interval self;
       latest_price := Some (close b); latest_bar_data := Some b |}.

(** A stream of bars, one [on_bar] each. *)
Definition feed (self : collector) (bars : list bar) : collector :=
  fold_left on_bar bars self.

(** [update]: true as soon as one candle has been completed. *)
Definition update (self : collector) : bool :=
  0 <? Py.len (candles self).

(** [get_dataframe]: no frame while there is no candle, else one row per
    candle, indexed by its timestamp. *)
Definition get_dataframe (self : collector) : option (list candle) :=
  match candles self with
  | [] => None
  | _ :: _ => Some (candles self)
  end.

(** [has_minimum_candles]. *)
Definition has_minimum_candles (self : collector) (min_count : Z) : bool :=
  min_count <=? Py.len (candles self).

End LiveDataCollector.

(* ------------------------------------------------------------------------- *)
(** * live_trader.py: position sizing *)

Module LiveTrader.
Import Py Config.

Inductive order_side := BUY | SELL.

(** The dict returned by [calculate_order_details]. *)
Record order_details := {
  side : order_side;
  qty : Q;
  entry : Q;
  stop : Q;
  target_1 : Q;
  target_2 : Q;
  target_3 : Q;
  stop_distance : Q;
  risk_dollars : Q;
  potential_profit_t1 : Q;
  potential_profit_t2 : Q;
  potential_profit_t3 : Q;
  account_balance : Q;
  od_atr : Q;
  stop_multiplier : Q;
  is_bullish : bool
}.

Definition is_BULLISH (t : SignalDetector.signal_type) : bool :=
  match t with SignalDetector.BULLISH => true | _ => false end.

(** [calculate_order_details].  [account_equity] is [float(account.equity)]
    as the brokerage reports it.  A NaN ATR makes [stop_distance > 0] and
    [qty <= 0] both false; the
    first sends [qty] to 0, so no plan is returned.  The arithmetic is that
    of exact rationals; the code computes in doubles, so what is stated
    about the rounded quantity is stated up to the choice between the two
    nearest 6-decimal values, and for a positive entry price. *)
Definition calculate_order_details (cfg : config) (account_equity : Q)
           (signal : SignalDetector.signal) (current_price : Q)
  : option order_details :=
  let is_bullish := is_BULLISH (SignalDetector.s_type signal) in
  match SignalDetector.s_atr signal with
  | None => None
  | Some atr =>
      let stop_multiplier := STOP_MULTIPLIER cfg in
      let account_balance := account_equity in
      let risk_amount := account_balance * RISK_PER_TRADE cfg in
      let entry := current_price in
      let stop :=
        if is_bullish then entry - (atr * stop_multiplier)
        else entry + (atr * stop_multiplier) in
      let target rr :=
        if is_bullish then entry + (atr * stop_multiplier * rr)
        else entry - (atr * stop_multiplier * rr) in
      let target_1 := target (TARGET_1_RR cfg) in
      let target_2 := target (TARGET_2_RR cfg) in
      let target_3 := target (TARGET_3_RR cfg) in
      let side := if is_bullish then BUY else SELL in
      let stop_distance := Qabs (entry - stop) in
      let qty :=
        if Qltb 0 stop_distance then
          let position_size_usd := risk_amount / stop_distance in
          round6 (position_size_usd / entry)
        else 0 in
      if Qle_bool qty 0 then None
      else Some {| side := side;
                   qty := qty;
                   entry := entry;
                   stop := stop;
                   target_1 := target_1;
                   target_2 := target_2;
                   target_3 := target_3;
                   stop_distance := stop_distance;
                   risk_dollars := qty * stop_distance;
                   potential_profit_t1 := qty * Qabs (target_1 - entry);
                   potential_profit_t2 := qty * Qabs (target_2 - entry);
                   potential_profit_t3 := qty * Qabs (target_3 - entry);
                   account_balance := account_balance;
                   od_atr := atr;
                   stop_multiplier := stop_multiplier;
                   is_bullish := is_bullish |}
  end%Q.

(** *** execute_trade and on_new_candle *)

(** The market order handed to the brokerage (symbol and time in force are
    constants). *)
Record order_request := {
  rq_qty : Q;
  rq_side : order_side
}.

(** The [open_position] dict. *)
Record position := {
  pos_order_id : Z;
  pos_qty : Q;
  pos_side : bool;
  pos_entry : Q;
  pos_stop : Q;
  pos_target_1 : Q;
  pos_target_2 : Q;
  pos_target_3 : Q
}.

(** The attributes of the trader that a new candle reads or writes. *)
Record trader := {
  data_collector : LiveDataCollector.collector;
  signal_detector : option SignalDetector.detector;
  open_position : option position
}.

(** [execute_trade].  [response] is what [submit_order] answers if it is
    called: an order id, or [None] for an exception, which is caught and
    leaves the trader as it was.  The second component is the order that was
    submitted, if any. *)
Definition execute_trade (self : trader) (response : option Z)
           (order_details : LiveTrader.order_details)
  : trader * option order_request :=
  match open_position self with
  | Some _ => (self, None)
  | None =>
      let qty := qty order_details in
      let side := if is_bullish order_details then BUY else SELL in
      let order_request := {| rq_qty := qty; rq_side := side |} in
      match response with
      | None => (self, Some order_request)
      | Some order_id =>
          ({| data_collector := data_collector self;
              signal_detector := signal_detector self;
              open_position :=
                Some {| pos_order_id := order_id;
                        pos_qty := qty;
                        pos_side := is_bullish order_details;
                        pos_entry := entry order_details;
                        pos_stop := stop order_details;
                        pos_target_1 := target_1 order_details;
                        pos_target_2 := target_2 order_details;
                        pos_target_3 := target_3 order_details |} |},
           Some order_request)
      end
  end.

(** The frame of [on_new_candle]: the candles with their five indicator
    columns, each column read at the position of its row; [None] is an
    exception in the indicator block, after which the candle is skipped. *)
Definition augment (st : settings) (cs : list LiveDataCollector.candle)
  : option SignalDetector.frame :=
  let closes := map LiveDataCollector.c_close cs in
  let rsi := IndicatorCalculator.calculate_rsi closes (RSI_PERIOD st) in
  let atr :=
    IndicatorCalculator.calculate_atr
      LiveDataCollector.c_high LiveDataCollector.c_low
      LiveDataCollector.c_close cs (ATR_PERIOD st) in
  match IndicatorCalculator.calculate_ema closes (EMA_FAST st),
        IndicatorCalculator.calculate_ema closes (EMA_MID st),
        IndicatorCalculator.calculate_ema closes (EMA_SLOW st) with
  | Some ema20, Some ema50, Some ema100 =>
      Some (map (fun ci =>
                   let c := fst ci in
                   let i := snd ci in
                   {| SignalDetector.time := LiveDataCollector.c_timestamp c;
                      SignalDetector.open := LiveDataCollector.c_open c;
                      SignalDetector.high := LiveDataCollector.c_high c;
                      SignalDetector.low := LiveDataCollector.c_low c;
                      SignalDetector.close := LiveDataCollector.c_close c;
                      SignalDetector.volume := LiveDataCollector.c_volume c;
                      SignalDetector.rsi := nth i rsi None;
                      SignalDetector.atr := nth i atr None;
                      SignalDetector.ema20 := nth i ema20 0%Q;
                      SignalDetector.ema50 := nth i ema50 0%Q;
                      SignalDetector.ema100 := nth i ema100 0%Q |})
                (combine cs (seq 0 (length cs))))
  | _, _, _ => None
  end.

Definition set_detector (self : trader) (d : SignalDetector.detector)
  : trader :=
  {| data_collector := data_collector self;
     signal_detector := Some d;
     open_position := open_position self |}.

(** [on_new_candle].  [account_equity] is what the brokerage reports when
    asked ([None]: the request fails, and no order details are computed);
    [response] is its answer to an order.  The second component is the order
    submitted, if any. *)
Definition on_new_candle (cfg : config) (st : settings)
           (account_equity : option Q) (response : option Z) (self : trader)
  : trader * option order_request :=
  match LiveDataCollector.get_dataframe (data_collector self) with
  | None => (self, None)
  | Some cs =>
      if len cs <? 100 then (self, None) else
      match augment st cs with
      | None => (self, None)
      | Some df =>
          match iloc (map SignalDetector.close df) (-1) with
          | None => (self, None)
          | Some current_price =>
              match signal_detector self with
              | None => (self, None)
              | Some detector =>
                  match SignalDetector.detect_signal cfg df detector with
                  | None => (self, None)
                  | Some (None, detector) => (set_detector self detector, None)
                  | Some (Some signal, detector) =>
                      let self := set_detector self detector in
                      match
                        match account_equity with
                        | None => None
                        | Some q =>
                            calculate_order_details cfg q signal current_price
                        end
                      with
                      | None => (self, None)
                      | Some order_details =>
                          if LOG_SIGNALS_ONLY st then (self, None)
                          else execute_trade self response order_details
                      end
                  end
              end
          end
      end
  end.

End LiveTrader.

(* ------------------------------------------------------------------------- *)
(** * Vocabulary of the design document

  Names for the notions the properties are worded in; each is read off the
  code above. *)

Module Vocabulary.
Import Py Config SignalDetector.

(** The candidate (pivot-evaluation) position of a frame: [check_index]. *)
Definition candidate (cfg : config) (df : frame) : Z :=
  len df - Z.of_nat (PIVOT_LOOKBACK cfg) - 1.

(** A prior pivot the loop does not skip: same type, at least 8 bars
    back. *)
Definition qualifies (pivot prev_pivot : pivot) : bool :=
  pivot_type_eqb (p_type prev_pivot) (p_type pivot)
  && negb (p_index pivot - p_index prev_pivot <? 8).

(** The divergence pattern test, in either direction. *)
Definition pattern_test (pivot prev_pivot : pivot) : bool :=
  bullish_divergence pivot prev_pivot || bearish_divergence pivot prev_pivot.

(** The direction a pivot can signal: lows are bullish. *)
Definition direction (pivot : pivot) : bool :=
  pivot_type_eqb (p_type pivot) PivotLow.

(** The signal dict for a candidate matched with [prev_pivot]. *)
Definition signal_of (pivot prev_pivot : pivot) (confidence : Q)
           (atr : option Q) : signal :=
  {| s_type := if direction pivot then BULLISH else BEARISH;
     s_time := p_time pivot;
     s_price := p_price pivot;
     s_rsi := p_rsi pivot;
     s_confidence := confidence;
     s_atr := atr;
     s_bars_between := p_index pivot - p_index prev_pivot |}.

End Vocabulary.

Module PivotVocabulary.
Import Py.

(** Position [i] lies at least [lookback] from either end of [s] and holds
    a value strictly above every other position of its window. *)
Definition strict_peak (s : list Q) (i : Z) (lookback : nat) : Prop :=
  Z.of_nat lookback <= i <= len s - Z.of_nat lookback - 1 /\
  forall j, i - Z.of_nat lookback <= j <= i + Z.of_nat lookback -> j <> i ->
            exists hj hi,
              iloc s j = Some hj /\ iloc s i = Some hi /\ (hj < hi)%Q.

(** The same with a value strictly below. *)
Definition strict_trough (s : list Q) (i : Z) (lookback : nat) : Prop :=
  Z.of_nat lookback <= i <= len s - Z.of_nat lookback - 1 /\
  forall j, i - Z.of_nat lookback <= j <= i + Z.of_nat lookback -> j <> i ->
            exists lj li,
              iloc s j = Some lj /\ iloc s i = Some li /\ (li < lj)%Q.

End PivotVocabulary.

Module RsiVocabulary.
Import Py.

(** The gain and the loss magnitude of step [j]: the positive part of the
    change from bar [j-1] to bar [j], and the magnitude of its negative
    part; the first bar has no change. *)
Definition step_gain (close : list Q) (j : nat) : Q :=
  match j with
  | O => 0
  | S k => let d := nth j close 0 - nth k close 0 in
           if Qltb 0 d then d else 0
  end%Q.

Definition step_loss (close : list Q) (j : nat) : Q :=
  match j with
  | O => 0
  | S k => let d := nth j close 0 - nth k close 0 in
           if Qltb d 0 then - d else 0
  end%Q.

(** The simple (unweighted) mean of [f] over the [period] steps ending at
    step [i]. *)
Definition trailing_mean (f : nat -> Q) (period i : nat) : Q :=
  (fold_right Qplus 0 (map f (seq (i + 1 - period) period))
   / inject_Z (Z.of_nat period))%Q.

(** The RSI of the design document at bar [i]: undefined until [period]
    bars are there and wherever the average loss is zero. *)
Definition rsi_spec (close : list Q) (period i : nat) : option Q :=
  if (i + 1 <? period)%nat then None
  else
    let avg_gain := trailing_mean (step_gain close) period i in
    let avg_loss := trailing_mean (step_loss close) period i in
    if Qeq_bool avg_loss 0 then None
    else Some (100 - 100 / (1 + avg_gain / avg_loss))%Q.

End RsiVocabulary.

Module AtrVocabulary.

Section Frame.
Context {R : Type} (high low close : R -> Q).

(** The true range of a bar whose previous close is [prev]: the greatest of
    [high - low], [|high - prev|] and [|low - prev|]. *)
Definition true_range_of (prev : Q) (r : R) : Q :=
  Py.max (Py.max (high r - low r) (Qabs (high r - prev)))
         (Qabs (low r - prev)).

Fixpoint true_ranges_from (prev : Q) (df : list R) : list Q :=
  match df with
  | [] => []
  | r :: df' => true_range_of prev r :: true_ranges_from (close r) df'
  end.

(** The true range of every bar; the first bar has no previous close and
    only its own range. *)
Definition true_ranges (df : list R) : list Q :=
  match df with
  | [] => []
  | r :: df' => (high r - low r)%Q :: true_ranges_from (close r) df'
  end.

End Frame.

End AtrVocabulary.

Module CollectorVocabulary.
Import LiveDataCollector.

(** While a working candle is open, the period start is the timestamp of
    the bar that opened it, and the candle holds between one and four bars.
    Nothing is asked of the period start while no candle is open:
    [start_collection] sets it before the first bar arrives. *)
Definition consistent (self : collector) : Prop :=
  match current_candle self with
  | None => True
  | Some w =>
      candle_start self = Some (w_timestamp w) /\ 1 <= bars_in_candle w <= 4
  end.

(** Low and high enclose open and close. *)
Definition bar_ok (b : bar) : Prop :=
  (low b <= open b <= high b /\ low b <= close b <= high b)%Q.

Definition working_ok (w : working) : Prop :=
  (w_low w <= w_open w <= w_high w /\ w_low w <= w_close w <= w_high w)%Q.

Definition candle_ok (c : candle) : Prop :=
  (c_low c <= c_open c <= c_high c /\ c_low c <= c_close c <= c_high c)%Q.

(** The open candle and the completed ones, all enclosed by low and high. *)
Definition all_ok (self : collector) : Prop :=
  Forall candle_ok (candles self) /\
  match current_candle self with
  | None => True
  | Some w => working_ok w
  end.

(** Bars that arrive [step] seconds apart, the first at [t0]. *)
Definition evenly_spaced (t0 step : Z) (bars : list bar) : Prop :=
  forall i b, nth_error bars i = Some b ->
              timestamp b = t0 + step * Z.of_nat i.

End CollectorVocabulary.

Module TraderVocabulary.
Import LiveTrader.

(** A run of [execute_trade] calls, each with the brokerage's answer and the
    order details it is given; the orders submitted, call by call. *)
Fixpoint execute_all (self : trader)
         (calls : list (option Z * order_details))
  : trader * list (option order_request) :=
  match calls with
  | [] => (self, [])
  | (response, od) :: calls' =>
      let (self1, out) := execute_trade self response od in
      let (self2, outs) := execute_all self1 calls' in
      (self2, out :: outs)
  end.

(** The position that [execute_trade] records for an accepted order. *)
Definition position_of (order_id : Z) (od : order_details) : position :=
  {| pos_order_id := order_id;
     pos_qty := qty od;
     pos_side := is_bullish od;
     pos_entry := entry od;
     pos_stop := stop od;
     pos_target_1 := target_1 od;
     pos_target_2 := target_2 od;
     pos_target_3 := target_3 od |}.

End TraderVocabulary.

Module CandleVocabulary.
Import LiveDataCollector.



(** Bar [b] completes the working candle: it arrives at least one interval
    after the period start, or it is the candle's fifth bar. *)
Definition closes (self : collector) (b : bar) : Prop :=
  exists w start,
    current_candle self = Some w /\ candle_start self = Some start /\
    (interval self <= timestamp b - start \/ 5 <= bars_in_candle w + 1).


End CandleVocabulary.

Module RoundingVocabulary.


End RoundingVocabulary.

(* ------------------------------------------------------------------------- *)
(** * Sample data *)

Module Samples.
Import Py Config SignalDetector.

(** A quiet row: no trend, RSI 50, ATR 10, and a price range that ties with
    its neighbours, so that it is no pivot. *)
Definition quiet_row (i : nat) : row :=
  {| time := Z.of_nat i;
     open := 250; high := 300; low := 200; close := 250; volume := 1;
     rsi := Some 50%Q; atr := Some 10%Q;
     ema20 := 250; ema50 := 250; ema100 := 250 |}.

(** The same row with a low of [price] and an RSI of [r]. *)
Definition trough_row (i : nat) (price r : Q) : row :=
  {| time := Z.of_nat i;
     open := 250; high := 300; low := price; close := 250; volume := 1;
     rsi := Some r; atr := Some 10%Q;
     ema20 := 250; ema50 := 250; ema100 := 250 |}.

Fixpoint row_at (troughs : list (nat * (Q * Q))) (i : nat) : row :=
  match troughs with
  | [] => quiet_row i
  | (j, (price, r)) :: rest =>
      if (i =? j)%nat then trough_row i price r else row_at rest i
  end.

(** The first [n] candles of a market that is quiet except for the given
    troughs. *)
Definition market (troughs : list (nat * (Q * Q))) (n : nat) : frame :=
  map (row_at troughs) (seq 0 n).

(** Three descending lows with rising RSI, at bars 96, 106 and 112. *)
Definition falling : list (nat * (Q * Q)) :=
  [(96%nat, (100, 25)%Q); (106%nat, (95, 30)%Q); (112%nat, (90, 34)%Q)].

(** A low at bar 96, a deeper one at 106, a shallower one at 116. *)
Definition rebound : list (nat * (Q * Q)) :=
  [(96%nat, (100, 25)%Q); (106%nat, (90, 30)%Q); (116%nat, (95, 32)%Q)].

(** The frames a growing market shows, one more candle each time, from
    [from] candles on. *)
Definition frames (troughs : list (nat * (Q * Q))) (from count : nat)
  : list frame :=
  map (market troughs) (seq from count).

(** The detector after it has seen every frame from 100 candles up to
    [upto] candles. *)
Definition after (troughs : list (nat * (Q * Q))) (upto : nat) : detector :=
  match run CONFIG (frames troughs 100 (upto - 99)) init with
  | Some (_, self) => self
  | None => init
  end.

(** The signal the [falling] market gives at bar 106, seen from bar 96. *)
Definition falling_signal : signal :=
  {| s_type := BULLISH; s_time := 106; s_price := 95;
     s_rsi := Some 30%Q;
     s_confidence := calculate_confidence (market falling 110) 106 true;
     s_atr := Some 10%Q; s_bars_between := 10 |}.

(** The signal the [rebound] market gives at bar 116, seen from bar 96. *)
Definition rebound_signal : signal :=
  {| s_type := BULLISH; s_time := 116; s_price := 95;
     s_rsi := Some 32%Q;
     s_confidence := calculate_confidence (market rebound 120) 116 true;
     s_atr := Some 10%Q; s_bars_between := 20 |}.

(** Eighty quiet candles: more than [MIN_CANDLES_REQUIRED], fewer than
    100. *)
Definition short_frame : frame := market [] 80.

(** A row with a zero ATR, and a frame that ends with it. *)
Definition dead_row : row :=
  {| time := 1;
     open := 250; high := 300; low := 200; close := 250; volume := 1;
     rsi := Some 20%Q; atr := Some 0%Q;
     ema20 := 250; ema50 := 250; ema100 := 250 |}.

Definition dead_frame : frame := [quiet_row 0; dead_row].

(** A series with one strict peak at position 1 and a tie on its right. *)
Definition peak_then_tie : list Q := [1; 3; 2; 2]%Q.

End Samples.

Module CollectorSamples.
Import LiveDataCollector.

(** A minute bar whose four prices differ. *)
Definition spread_bar : bar :=
  {| timestamp := 0; open := 1; high := 3; low := 0; close := 2;
     volume := 5 |}.




End CollectorSamples.

Module TraderSamples.
Import Config SignalDetector.

(** A bullish signal with an ATR of 50. *)
Definition atr50_signal : signal :=
  {| s_type := BULLISH; s_time := 0; s_price := 29900;
     s_rsi := Some 28%Q; s_confidence := 45 # 100;
     s_atr := Some 50%Q; s_bars_between := 10 |}.

End TraderSamples.

Module RsiSamples.

(** Closes that only rise, then one fall. *)
Definition rising : list Q := [10; 11; 12; 13; 12]%Q.

End RsiSamples.

Module LoopSamples.
Import Config LiveDataCollector LiveTrader.

(** A market that slides one dollar a bar to bar 96, recovers for three bars,
    slides for seven bars to a lower low at bar 106 and recovers again. *)
Definition slide_close (i : nat) : Z :=
  if (i <=? 96)%nat then 1200 - Z.of_nat i
  else if (i <=? 99)%nat then 1104 + (Z.of_nat i - 96)
  else if (i <=? 106)%nat then 1107 - (Z.of_nat i - 99)
  else 1100 + (Z.of_nat i - 106).

Definition slide_candle (i : nat) : candle :=
  {| c_timestamp := 300 * Z.of_nat i;
     c_open := inject_Z (slide_close i);
     c_high := inject_Z (slide_close i + 1);
     c_low := inject_Z (slide_close i - 1);
     c_close := inject_Z (slide_close i);
     c_volume := 1 |}.

(** The collector once [n] of these candles are complete. *)
Definition slide_collector (n : nat) : collector :=
  {| candles := map slide_candle (seq 0 n);
     current_candle := None; candle_start := None; interval := 300;
     latest_price := None; latest_bar_data := None |}.

(** [SETTINGS] with orders switched on. *)
Definition live_settings : settings :=
  {| RSI_PERIOD := 11; ATR_PERIOD := 14;
     EMA_FAST := 20; EMA_MID := 50; EMA_SLOW := 100;
     LOG_SIGNALS_ONLY := false |}.

(** The trader when trading is enabled, with 100 candles collected. *)
Definition slide_trader_100 : trader :=
  {| data_collector := slide_collector 100;
     signal_detector := Some SignalDetector.init;
     open_position := None |}.

(** The same trader after that candle, with 110 candles collected. *)
Definition slide_trader_110 : trader :=
  {| data_collector := slide_collector 110;
     signal_detector :=
       signal_detector
         (fst (on_new_candle CONFIG live_settings (Some 10000%Q) (Some 7)
                             slide_trader_100));
     open_position := None |}.

(** The frame built from the 110 candles. *)
Definition slide_frame : SignalDetector.frame :=
  match augment live_settings (candles (slide_collector 110)) with
  | Some df => df
  | None => []
  end.

(** The detector that has recorded the low of bar 96. *)
Definition slide_detector : SignalDetector.detector :=
  {| SignalDetector.recent_pivots :=
       [{| SignalDetector.p_index := 96;
           SignalDetector.p_type := SignalDetector.PivotLow;
           SignalDetector.p_price := 1103;
           SignalDetector.p_rsi := Some (0 # 121);
           SignalDetector.p_time := 28800 |}];
     SignalDetector.last_signal_time := None |}.

(** The signal that the frame gives, and the detector after it. *)
Definition slide_signal : SignalDetector.signal :=
  match SignalDetector.detect_signal CONFIG slide_frame slide_detector
        return SignalDetector.signal with
  | Some (Some sig, _) => sig
  | _ => {| SignalDetector.s_type := SignalDetector.BEARISH;
            SignalDetector.s_time := 0; SignalDetector.s_price := 0;
            SignalDetector.s_rsi := None; SignalDetector.s_confidence := 0;
            SignalDetector.s_atr := None;
            SignalDetector.s_bars_between := 0 |}
  end.

Definition slide_detector_after : SignalDetector.detector :=
  match SignalDetector.detect_signal CONFIG slide_frame slide_detector
        return SignalDetector.detector with
  | Some (_, d) => d
  | None => slide_detector
  end.

(** The trader after the candle that closes the slide, and the order it
    submits when the account holds 10000 and the brokerage answers with
    order id 7. *)
Definition slide_trader_after : trader :=
  fst (on_new_candle CONFIG live_settings (Some 10000%Q) (Some 7)
                     slide_trader_110).

Definition slide_request : order_request :=
  match snd (on_new_candle CONFIG live_settings (Some 10000%Q) (Some 7)
                           slide_trader_110)
        return order_request with
  | Some rq => rq
  | None => {| rq_qty := 0; rq_side := SELL |}
  end.

End LoopSamples.

Module MoreSamples.
Import Config LiveDataCollector.

(** Closes that rise or stay, never fall. *)
Definition climbing : list Q := [1; 2; 2; 3]%Q.

(** Two peaks two bars apart. *)
Definition twin_peaks : list Q := [1; 3; 1; 3; 1]%Q.

(** Three closes between 10 and 12. *)
Definition three_closes : list Q := [10; 12; 11]%Q.

(** Nine one-minute bars, each with low and high around open and close. *)
Definition nine_bars : list bar :=
  map (fun i => {| timestamp := 60 * Z.of_nat i;
                   open := 10; high := 12; low := 9; close := 11;
                   volume := 1 |})
      (seq 0 9).

(** [CONFIG] with a minimum confidence of 0.90. *)
Definition strict_config : config :=
  {| MIN_CANDLES_REQUIRED := 30;
     RISK_PER_TRADE := 10 # 100;
     MIN_CONFIDENCE := 90 # 100;
     PIVOT_LOOKBACK := 3;
     MAX_LOOKBACK_BARS := 50;
     STOP_MULTIPLIER := 15 # 10;
     TARGET_1_RR := 15 # 10;
     TARGET_2_RR := 25 # 10;
     TARGET_3_RR := 35 # 10 |}.

End MoreSamples.

(* ========================================================================= *)
(** * Properties *)

Section PyFacts.
Import Py.

Lemma Qltb_lt (x y : Q) : Qltb x y = true <-> (x < y)%Q.
Proof.
  unfold Qltb. rewrite negb_true_iff.
  split; intro H.
  - apply Qnot_le_lt. intro Hle. apply Qle_bool_iff in Hle. congruence.
  - destruct (Qle_bool y x) eqn:E; [|reflexivity].
    apply Qle_bool_iff in E. exfalso. apply (Qlt_not_le _ _ H E).
Qed.

Lemma Qltb_ge (x y : Q) : Qltb x y = false <-> (y <= x)%Q.
Proof.
  unfold Qltb. rewrite negb_false_iff. apply Qle_bool_iff.
Qed.

Lemma Qle_bool_false (x y : Q) : Qle_bool x y = false <-> (y < x)%Q.
Proof.
  rewrite <- Qltb_lt. unfold Qltb.
  destruct (Qle_bool x y); simpl; split; congruence.
Qed.

Lemma in_range (a b j : Z) : In j (range a b) <-> a <= j < b.
Proof.
  unfold range. rewrite in_map_iff. split.
  - intros [k [<- Hk]]. apply in_seq in Hk. lia.
  - intros H. exists (Z.to_nat (j - a)). split; [lia|].
    apply in_seq. lia.
Qed.

Lemma iloc_nonneg {A} (s : list A) (i : Z) :
  0 <= i < len s -> iloc s i = nth_error s (Z.to_nat i).
Proof.
  intros H. unfold iloc.
  replace (0 <=? i) with true by (symmetry; apply Z.leb_le; lia).
  replace (i <? len s) with true by (symmetry; apply Z.ltb_lt; lia).
  reflexivity.
Qed.

Lemma iloc_some {A} (s : list A) (i : Z) :
  0 <= i < len s -> exists x, iloc s i = Some x.
Proof.
  intros H. rewrite iloc_nonneg by exact H.
  destruct (nth_error s (Z.to_nat i)) eqn:E; [eauto|].
  apply nth_error_None in E. unfold len in H. lia.
Qed.

Lemma iloc_map {A B} (f : A -> B) (s : list A) (i : Z) :
  iloc (map f s) i = option_map f (iloc s i).
Proof.
  unfold iloc, len. rewrite length_map.
  repeat match goal with |- context [if ?b then _ else _] => destruct b end;
    try apply nth_error_map; reflexivity.
Qed.

Lemma iloc_rev {A} (s : list A) (i : Z) :
  0 <= i < len s -> iloc (rev s) (len s - 1 - i) = iloc s i.
Proof.
  intros H.
  rewrite (iloc_nonneg s i) by exact H.
  rewrite iloc_nonneg by (unfold len in *; rewrite length_rev; lia).
  unfold len in *.
  destruct (nth_error s (Z.to_nat i)) eqn:E.
  - rewrite <- E.
    replace (Z.to_nat (Z.of_nat (length s) - 1 - i))
      with (length s - S (Z.to_nat i))%nat by lia.
    rewrite nth_error_rev.
    replace (length s - S (length s - S (Z.to_nat i)))%nat
      with (Z.to_nat i) by lia.
    destruct (Nat.ltb_spec (length s - S (Z.to_nat i)) (length s));
      [reflexivity | lia].
  - apply nth_error_None in E. lia.
Qed.

End PyFacts.

(* ------------------------------------------------------------------------- *)
(** ** Pivot flags *)

Section PivotFacts.
Import Py IndicatorCalculator PivotVocabulary.

Lemma Qle_bool_opp (x y : Q) : Qle_bool (- y) (- x) = Qle_bool x y.
Proof.
  destruct (Qle_bool x y) eqn:E.
  - apply Qle_bool_iff. apply Qle_bool_iff in E. lra.
  - apply Qle_bool_false. apply Qle_bool_false in E. lra.
Qed.

(** Negating the series exchanges the two scans. *)
Lemma pivot_low_scan_opp (lows : list Q) (index : Z) (current : Q) js :
  pivot_low_scan lows index current js
  = pivot_high_scan (map Qopp lows) index (- current) js.
Proof.
  induction js as [|j js IH]; simpl; [reflexivity|].
  destruct (j =? index); [exact IH|].
  rewrite iloc_map. destruct (iloc lows j) as [l|]; simpl; [|reflexivity].
  rewrite Qle_bool_opp. rewrite IH. reflexivity.
Qed.

Lemma find_pivot_low_opp (lows : list Q) (index : Z) (lookback : nat) :
  find_pivot_low lows index lookback
  = find_pivot_high (map Qopp lows) index lookback.
Proof.
  unfold find_pivot_low, find_pivot_high.
  replace (len (map Qopp lows)) with (len lows)
    by (unfold len; rewrite length_map; reflexivity).
  destruct ((index <? Z.of_nat lookback)
            || (index >=? len lows - Z.of_nat lookback)); [reflexivity|].
  rewrite iloc_map. destruct (iloc lows index) as [c|]; simpl; [|reflexivity].
  apply pivot_low_scan_opp.
Qed.

(** The scan answers [True] exactly when every visited position other than
    [index] holds a strictly smaller value. *)
Lemma pivot_high_scan_true (s : list Q) (index : Z) (current : Q) js :
  pivot_high_scan s index current js = Some true <->
  (forall j, In j js -> j <> index ->
             exists h, iloc s j = Some h /\ (h < current)%Q).
Proof.
  induction js as [|j js IH]; simpl.
  - split; [intros _ j [] | reflexivity].
  - destruct (Z.eqb_spec j index) as [->|Hne].
    + rewrite IH. split.
      * intros H j [<-|Hj] Hn; [congruence | auto].
      * intros H j Hj Hn. apply H; auto.
    + destruct (iloc s j) as [h|] eqn:Ej.
      * destruct (Qle_bool current h) eqn:Ec.
        -- split; [discriminate|]. intros H.
           destruct (H j (or_introl eq_refl) Hne) as [h' [Eh Hlt]].
           rewrite Ej in Eh. injection Eh as <-.
           apply Qle_bool_iff in Ec. lra.
        -- rewrite IH. apply Qle_bool_false in Ec. split.
           ++ intros H j' [<-|Hj] Hn; [eauto | auto].
           ++ intros H j' Hj Hn. apply H; auto.
      * split; [discriminate|]. intros H.
        destruct (H j (or_introl eq_refl) Hne) as [h' [Eh _]].
        rewrite Ej in Eh. discriminate.
Qed.

(** Inside the series the scan never raises. *)
Lemma pivot_high_scan_total (s : list Q) (index : Z) (current : Q) js :
  (forall j, In j js -> 0 <= j < len s) ->
  pivot_high_scan s index current js <> None.
Proof.
  induction js as [|j js IH]; simpl; intros Hin; [discriminate|].
  assert (Hjs : pivot_high_scan s index current js <> None)
    by (apply IH; intros; apply Hin; auto).
  destruct (j =? index); [exact Hjs|].
  destruct (iloc_some s j (Hin j (or_introl eq_refl))) as [h ->].
  destruct (Qle_bool current h); [discriminate | exact Hjs].
Qed.

(** What the guard of [find_pivot_high] lets through. *)
Lemma pivot_guard (n index : Z) (lookback : nat) :
  (index <? Z.of_nat lookback) || (index >=? n - Z.of_nat lookback) = false
  <-> Z.of_nat lookback <= index <= n - Z.of_nat lookback - 1.
Proof.
  rewrite orb_false_iff, Z.ltb_ge, Z.geb_leb, Z.leb_gt. lia.
Qed.

Lemma find_pivot_high_true (s : list Q) (i : Z) (lookback : nat) :
  find_pivot_high s i lookback = Some true <-> strict_peak s i lookback.
Proof.
  unfold find_pivot_high, strict_peak.
  destruct ((i <? Z.of_nat lookback) || (i >=? len s - Z.of_nat lookback))
    eqn:G.
  - split; [discriminate|]. intros [Hr _].
    apply pivot_guard in Hr. congruence.
  - apply pivot_guard in G.
    destruct (iloc_some s i) as [c Ec]; [lia|]. rewrite Ec.
    rewrite pivot_high_scan_true. split.
    + intros H. split; [exact G|]. intros j Hj Hn.
      destruct (H j) as [h [Eh Hlt]]; [apply in_range; lia | exact Hn |].
      exists h, c. auto.
    + intros [_ H] j Hj Hn. apply in_range in Hj.
      destruct (H j) as [hj [hi [Ej [Ei Hlt]]]]; [lia | exact Hn |].
      injection Ei as Ei. subst hi. eauto.
Qed.

Lemma find_pivot_high_total (s : list Q) (i : Z) (lookback : nat) :
  find_pivot_high s i lookback <> None.
Proof.
  unfold find_pivot_high.
  destruct ((i <? Z.of_nat lookback) || (i >=? len s - Z.of_nat lookback))
    eqn:G; [discriminate|].
  apply pivot_guard in G.
  destruct (iloc_some s i) as [c ->]; [lia|].
  apply pivot_high_scan_total. intros j Hj. apply in_range in Hj. lia.
Qed.

Lemma find_pivot_low_true (s : list Q) (i : Z) (lookback : nat) :
  find_pivot_low s i lookback = Some true <-> strict_trough s i lookback.
Proof.
  rewrite find_pivot_low_opp, find_pivot_high_true.
  unfold strict_peak, strict_trough, len. rewrite length_map.
  split; intros [Hr H]; (split; [exact Hr|]); intros j Hj Hn;
    destruct (H j Hj Hn) as [x [y [Ex [Ey Hlt]]]].
  - rewrite iloc_map in Ex, Ey.
    destruct (iloc s j) as [lj|]; [|discriminate].
    destruct (iloc s i) as [li|]; [|discriminate].
    simpl in *. injection Ex as <-. injection Ey as <-.
    exists lj, li. repeat split; auto. lra.
  - exists (- x)%Q, (- y)%Q. rewrite !iloc_map, Ex, Ey. simpl.
    repeat split; auto. lra.
Qed.

Lemma find_pivot_low_total (s : list Q) (i : Z) (lookback : nat) :
  find_pivot_low s i lookback <> None.
Proof. rewrite find_pivot_low_opp. apply find_pivot_high_total. Qed.

End PivotFacts.

(* ------------------------------------------------------------------------- *)
(** ** Pivots under reversal and negation *)

Section PivotSymmetry.
Import Py IndicatorCalculator PivotVocabulary.

Lemma len_rev {A} (s : list A) : len (rev s) = len s.
Proof. unfold len. rewrite length_rev. reflexivity. Qed.

Lemma strict_peak_rev (s : list Q) (i : Z) (lookback : nat) :
  strict_peak s i lookback -> strict_peak (rev s) (len s - 1 - i) lookback.
Proof.
  intros [Hr H]. split; [rewrite len_rev; lia|].
  intros j Hj Hn.
  destruct (H (len s - 1 - j)) as [hj [hi [Ej [Ei Hlt]]]]; [lia | lia |].
  exists hj, hi. repeat split; [| | exact Hlt].
  - rewrite <- Ej.
    replace j with (len s - 1 - (len s - 1 - j)) at 1 by lia.
    apply iloc_rev. lia.
  - rewrite <- Ei. apply iloc_rev. lia.
Qed.

Lemma find_pivot_high_rev (s : list Q) (i : Z) (lookback : nat) :
  find_pivot_high (rev s) (len s - 1 - i) lookback
  = find_pivot_high s i lookback.
Proof.
  assert (Hiff : find_pivot_high (rev s) (len s - 1 - i) lookback = Some true
                 <-> find_pivot_high s i lookback = Some true).
  { rewrite !find_pivot_high_true. split; intros H.
    - apply strict_peak_rev in H.
      rewrite rev_involutive, len_rev in H.
      replace (len s - 1 - (len s - 1 - i)) with i in H by lia. exact H.
    - apply strict_peak_rev. exact H. }
  pose proof (find_pivot_high_total (rev s) (len s - 1 - i) lookback) as T1.
  pose proof (find_pivot_high_total s i lookback) as T2.
  destruct (find_pivot_high (rev s) (len s - 1 - i) lookback) as [[|]|],
           (find_pivot_high s i lookback) as [[|]|];
    try congruence.
  - symmetry. apply Hiff. reflexivity.
  - apply Hiff. reflexivity.
Qed.

Lemma map_opp_opp (s : list Q) : map Qopp (map Qopp s) = s.
Proof.
  rewrite map_map. rewrite <- (map_id s) at 2. apply map_ext.
  intros [a b]. unfold Qopp. simpl. rewrite Z.opp_involutive. reflexivity.
Qed.

End PivotSymmetry.

(* ------------------------------------------------------------------------- *)
(** ** Pivot properties of the design document *)

Section PivotProperties.
Import Py IndicatorCalculator Samples.

(** C7.  [find_pivot_high highs i L] answers [True] exactly when
    [L <= i <= len highs - L - 1] and every other position [j] of
    [i-L .. i+L] holds a strictly smaller value than position [i];
    [find_pivot_low] likewise with strictly larger values.  Neither call
    raises, and both answer [False] for an index within [L] of either end
    of the series. *)
Theorem pivot_flags_characterised (s : list Q) (i : Z) (L : nat) :
  (find_pivot_high s i L = Some true <->
     Z.of_nat L <= i <= len s - Z.of_nat L - 1 /\
     forall j, i - Z.of_nat L <= j <= i + Z.of_nat L -> j <> i ->
       exists hj hi,
         iloc s j = Some hj /\ iloc s i = Some hi /\ (hj < hi)%Q) /\
  (find_pivot_low s i L = Some true <->
     Z.of_nat L <= i <= len s - Z.of_nat L - 1 /\
     forall j, i - Z.of_nat L <= j <= i + Z.of_nat L -> j <> i ->
       exists lj li,
         iloc s j = Some lj /\ iloc s i = Some li /\ (li < lj)%Q) /\
  find_pivot_high s i L <> None /\
  find_pivot_low s i L <> None /\
  (i < Z.of_nat L \/ len s - Z.of_nat L - 1 < i ->
     find_pivot_high s i L = Some false /\
     find_pivot_low s i L = Some false).
Proof.
  split; [apply find_pivot_high_true|].
  split; [apply find_pivot_low_true|].
  split; [apply find_pivot_high_total|].
  split; [apply find_pivot_low_total|].
  intros Hend.
  assert (G : (i <? Z.of_nat L) || (i >=? len s - Z.of_nat L) = true).
  { destruct ((i <? Z.of_nat L) || (i >=? len s - Z.of_nat L)) eqn:G;
      [reflexivity|]. apply pivot_guard in G. lia. }
  unfold find_pivot_high, find_pivot_low. rewrite G. split; reflexivity.
Qed.

Lemma pivot_flags_witness :
  (0 < Z.of_nat 1 \/ len peak_then_tie - Z.of_nat 1 - 1 < 0) /\
  find_pivot_high peak_then_tie 0 1 = Some false /\
  find_pivot_low peak_then_tie 0 1 = Some false.
Proof.
  split; [left; reflexivity|].
  apply (pivot_flags_characterised peak_then_tie 0 1).
  left. reflexivity.
Defined.

(** C9 as worded fails: the peak of [1;3;2;2] at position 1 is not a trough
    of the reversed, negated series [-2;-2;-3;-1] at position 1. *)
Lemma pivot_duality_same_index_fails :
  ~ (forall (s : list Q) (i : Z) (L : nat),
       find_pivot_high s i L = Some true <->
       find_pivot_low (rev (map Qopp s)) i L = Some true).
Proof.
  intros H.
  assert (E : find_pivot_low (rev (map Qopp peak_then_tie)) 1 1 = Some true)
    by (apply (proj1 (H peak_then_tie 1 1%nat)); reflexivity).
  vm_compute in E. discriminate.
Qed.

(** C9, amended.  Reversing the series and negating its values turns
    pivot-highs into pivot-lows at the mirrored index: [find_pivot_high] at
    [i] on the original series and [find_pivot_low] at [len - 1 - i] on the
    reversed, negated series give the same answer. *)
Theorem pivot_duality_mirrored (s : list Q) (i : Z) (L : nat) :
  find_pivot_low (rev (map Qopp s)) (len s - 1 - i) L
  = find_pivot_high s i L.
Proof.
  rewrite find_pivot_low_opp, map_rev, map_opp_opp.
  apply find_pivot_high_rev.
Qed.

End PivotProperties.

(* ------------------------------------------------------------------------- *)
(** ** The confidence score *)

Section Confidence.
Import Py Config SignalDetector Samples.
Open Scope Q_scope.

Lemma min_one_bounds (c : Q) : 0 <= c -> 0 <= Py.min c 1 <= 1.
Proof.
  intros H. unfold Py.min. destruct (Qltb 1 c) eqn:E.
  - lra.
  - apply Qltb_ge in E. lra.
Qed.

(** Each [if] of the score adds a fixed non-negative amount. *)
Ltac split_ifs :=
  repeat match goal with
         | |- context [if ?b then _ else _] => destruct b
         end.

Lemma calculate_confidence_bounds (df : frame) (index : Z) (b : bool) :
  0 <= calculate_confidence df index b <= 1.
Proof.
  unfold calculate_confidence.
  destruct (iloc df index) as [r|]; [|lra].
  destruct (rsi r) as [x|]; [|lra].
  destruct (atr r) as [a|]; [|lra].
  destruct (Qeq_bool a 0); [lra|].
  cbv zeta. apply min_one_bounds.
  generalize (Qabs (close r - ema20 r) / a) ((ema20 r - ema50 r) / a).
  intros distance dma.
  destruct b; simpl andb; split_ifs; lra.
Qed.

(** C3.  [calculate_confidence] lies in the closed interval from 0 to 1 for
    every frame, index and direction, and it is exactly 0 when the RSI or
    the ATR of the row is NaN or the ATR is zero (and when the index is
    outside the frame). *)
Theorem confidence_in_unit_interval (df : frame) (index : Z) (b : bool) :
  0 <= calculate_confidence df index b <= 1 /\
  (forall r, iloc df index = Some r ->
             rsi r = None \/ atr r = None \/
             (exists a, atr r = Some a /\ a == 0) ->
             calculate_confidence df index b = 0) /\
  (iloc df index = None -> calculate_confidence df index b = 0).
Proof.
  split; [apply calculate_confidence_bounds|]. split.
  - intros r Hr Hdeg. unfold calculate_confidence. rewrite Hr.
    destruct Hdeg as [-> | [-> | [a [-> Ha]]]].
    + reflexivity.
    + destruct (rsi r); reflexivity.
    + destruct (rsi r); [|reflexivity].
      apply Qeq_bool_iff in Ha. rewrite Ha. reflexivity.
  - intros Hn. unfold calculate_confidence. rewrite Hn. reflexivity.
Qed.

Lemma confidence_witness :
  iloc dead_frame (-1) = Some dead_row /\
  (exists a, atr dead_row = Some a /\ a == 0) /\
  calculate_confidence dead_frame (-1) true = 0.
Proof.
  split; [reflexivity|].
  split; [exists 0; split; reflexivity|].
  refine (proj1 (proj2 (confidence_in_unit_interval dead_frame (-1) true))
                dead_row eq_refl _).
  right. right. exists 0. split; reflexivity.
Defined.

End Confidence.

(* ------------------------------------------------------------------------- *)
(** ** The divergence detector *)

Section Detector.
Import Py Config SignalDetector Vocabulary Samples.

(** Past the two guards the candidate row exists. *)
Lemma candidate_row (cfg : config) (df : frame) :
  (candidate cfg df <? Z.of_nat (PIVOT_LOOKBACK cfg)) = false ->
  exists r, iloc df (candidate cfg df) = Some r.
Proof.
  intros H. apply Z.ltb_ge in H. apply iloc_some.
  unfold candidate in *. lia.
Qed.

(** What one run of the loop can return. *)
Lemma divergence_scan_result cfg df self k pivot prevs out self' :
  divergence_scan cfg df self k pivot prevs = Some (out, self') ->
  recent_pivots self' = recent_pivots self /\
  match out with
  | None => self' = self
  | Some _ => last_signal_time self' = Some k
  end.
Proof.
  induction prevs as [|prev rest IH]; simpl; intros H.
  - injection H as <- <-. auto.
  - repeat match type of H with
           | (if ?b then _ else _) = _ => destruct b
           | match ?o with Some _ => _ | None => _ end = _ => destruct o
           end;
      try (apply IH; exact H); try discriminate;
      injection H as <- <-; auto.
Qed.

Lemma divergence_scan_total cfg df self k pivot prevs r :
  iloc df k = Some r ->
  divergence_scan cfg df self k pivot prevs <> None.
Proof.
  intros Hr. induction prevs as [|prev rest IH]; simpl; [discriminate|].
  rewrite Hr.
  repeat match goal with
         | |- (if ?b then _ else _) <> _ => destruct b
         end; try exact IH; discriminate.
Qed.

(** [detect_signal] never lets an exception escape. *)
Lemma detect_signal_total cfg df self : detect_signal cfg df self <> None.
Proof.
  unfold detect_signal.
  destruct (len df <? 100); [discriminate|].
  destruct (cooling_down self (len df)); [discriminate|].
  fold (candidate cfg df).
  destruct (candidate cfg df <? Z.of_nat (PIVOT_LOOKBACK cfg)) eqn:G;
    [discriminate|].
  pose proof (find_pivot_high_total (map high df) (candidate cfg df)
                                    (PIVOT_LOOKBACK cfg)) as Th.
  pose proof (find_pivot_low_total (map low df) (candidate cfg df)
                                   (PIVOT_LOOKBACK cfg)) as Tl.
  destruct (IndicatorCalculator.find_pivot_high _ _ _) as [ph|];
    [|congruence].
  destruct (IndicatorCalculator.find_pivot_low _ _ _) as [pl|];
    [|congruence].
  destruct (negb ph && negb pl); [discriminate|].
  destruct (candidate_row cfg df G) as [r Hr]. rewrite Hr.
  eapply divergence_scan_total. exact Hr.
Qed.

(** A call that emits a signal has passed the length test and the lookback
    guard, and leaves the candidate position in [last_signal_time]; a call
    that emits none leaves [last_signal_time] as it was. *)
Lemma detect_signal_marker cfg df self out self' :
  detect_signal cfg df self = Some (out, self') ->
  match out with
  | None => last_signal_time self' = last_signal_time self
  | Some _ =>
      last_signal_time self' = Some (candidate cfg df) /\
      100 <= len df /\ Z.of_nat (PIVOT_LOOKBACK cfg) <= candidate cfg df
  end.
Proof.
  unfold detect_signal. fold (candidate cfg df).
  destruct (len df <? 100) eqn:G100;
    [intros H; injection H as <- <-; reflexivity|].
  destruct (cooling_down self (len df));
    [intros H; injection H as <- <-; reflexivity|].
  destruct (candidate cfg df <? Z.of_nat (PIVOT_LOOKBACK cfg)) eqn:G;
    [intros H; injection H as <- <-; reflexivity|].
  destruct (IndicatorCalculator.find_pivot_high _ _ _) as [ph|];
    [|discriminate].
  destruct (IndicatorCalculator.find_pivot_low _ _ _) as [pl|];
    [|discriminate].
  destruct (negb ph && negb pl);
    [intros H; injection H as <- <-; reflexivity|].
  destruct (iloc df (candidate cfg df)) as [r|]; [|discriminate].
  intros H. apply divergence_scan_result in H. destruct H as [_ H].
  apply Z.ltb_ge in G100, G.
  destruct out; [auto | subst self'; reflexivity].
Qed.

(** Calls that emit nothing do not move the cooldown marker. *)
Lemma run_silent_marker cfg dfs : forall self outs self',
  run cfg dfs self = Some (outs, self') ->
  Forall (fun o => o = None) outs ->
  last_signal_time self' = last_signal_time self.
Proof.
  induction dfs as [|df dfs IH]; simpl; intros self outs self' H Hs.
  - injection H as <- <-. reflexivity.
  - destruct (detect_signal cfg df self) as [[o s1]|] eqn:E; [|discriminate].
    destruct (run cfg dfs s1) as [[os s2]|] eqn:R; [|discriminate].
    injection H as <- <-. inversion Hs as [|? ? Ho Hos]. subst.
    apply detect_signal_marker in E. simpl in E.
    rewrite (IH _ _ _ R Hos). exact E.
Qed.

(** C10.  On a frame of fewer than 100 rows [detect_signal] returns no
    signal and leaves the pivot window and the cooldown marker untouched,
    whatever the configuration says (its [MIN_CANDLES_REQUIRED] is not
    consulted). *)
Theorem short_frame_no_signal (cfg : config) (df : frame) (self : detector) :
  len df < 100 -> detect_signal cfg df self = Some (None, self).
Proof.
  intros H. unfold detect_signal.
  replace (len df <? 100) with true by (symmetry; apply Z.ltb_lt; exact H).
  reflexivity.
Qed.

Lemma short_frame_witness :
  (Z.of_nat (MIN_CANDLES_REQUIRED CONFIG) <= len short_frame < 100) /\
  detect_signal CONFIG short_frame (after falling 110)
  = Some (None, after falling 110).
Proof.
  split; [vm_compute; split; [discriminate | reflexivity]|].
  apply (short_frame_no_signal CONFIG short_frame).
  vm_compute. reflexivity.
Defined.

(** C1 as worded fails: in the [falling] market a signal is emitted at
    candidate bar 106 (frame of 110 candles), the frames of 111 to 115
    candles are silent, and the frame of 116 candles emits the next signal,
    at candidate bar 112, six bars after the first. *)
Lemma cooldown_ten_candidates_fails :
  ~ (forall cfg df self sig self1 dfs outs self2 df',
       detect_signal cfg df self = Some (Some sig, self1) ->
       run cfg dfs self1 = Some (outs, self2) ->
       Forall (fun o => o = None) outs ->
       candidate cfg df' - candidate cfg df < 10 ->
       exists self3, detect_signal cfg df' self2 = Some (None, self3)).
Proof.
  intros H.
  destruct (H CONFIG (market falling 110) (after falling 109)
              falling_signal (after falling 110)
              (frames falling 111 5) (repeat None 5) (after falling 115)
              (market falling 116)) as [self3 E].
  - vm_compute. reflexivity.
  - vm_compute. reflexivity.
  - repeat constructor.
  - vm_compute. reflexivity.
  - vm_compute in E. discriminate.
Qed.

(** C1, amended.  After a call on frame [df] has emitted a signal, at
    candidate position [k], every later call made before the next signal
    whose frame has fewer than [k + 10] rows (that is, whose candidate
    position [k'] has [k' - k < 9 - lookback]) returns no signal and leaves
    the detector as it is; from [k' - k = 9 - lookback] on the cooldown check
    lets the call through. *)
Theorem cooldown_after_signal cfg df self sig self1 :
  detect_signal cfg df self = Some (Some sig, self1) ->
  forall dfs outs self2,
    run cfg dfs self1 = Some (outs, self2) ->
    Forall (fun o => o = None) outs ->
    forall df',
      (candidate cfg df' - candidate cfg df
         < 9 - Z.of_nat (PIVOT_LOOKBACK cfg) ->
       detect_signal cfg df' self2 = Some (None, self2)) /\
      (9 - Z.of_nat (PIVOT_LOOKBACK cfg)
         <= candidate cfg df' - candidate cfg df ->
       cooling_down self2 (len df') = false).
Proof.
  intros E dfs outs self2 R Hs df'.
  apply detect_signal_marker in E. destruct E as [E [H100 HL]].
  pose proof (run_silent_marker _ _ _ _ _ R Hs) as M. rewrite E in M.
  assert (C : forall n, cooling_down self2 n = (n - candidate cfg df <? 10)).
  { intros n. unfold cooling_down. rewrite M.
    destruct (Z.eqb_spec (candidate cfg df) 0) as [Z0|_]; [|reflexivity].
    unfold candidate in *. lia. }
  split; intros Hk.
  - unfold detect_signal. destruct (len df' <? 100); [reflexivity|].
    rewrite C.
    replace (len df' - candidate cfg df <? 10)
      with true by (symmetry; apply Z.ltb_lt; unfold candidate in *; lia).
    reflexivity.
  - rewrite C. apply Z.ltb_ge. unfold candidate in *. lia.
Qed.

Lemma cooldown_witness :
  detect_signal CONFIG (market falling 110) (after falling 109)
  = Some (Some falling_signal, after falling 110) /\
  run CONFIG (frames falling 111 4) (after falling 110)
  = Some (repeat None 4, after falling 114) /\
  candidate CONFIG (market falling 115) - candidate CONFIG (market falling 110)
    < 9 - Z.of_nat (PIVOT_LOOKBACK CONFIG) /\
  detect_signal CONFIG (market falling 115) (after falling 114)
  = Some (None, after falling 114).
Proof.
  assert (E : detect_signal CONFIG (market falling 110) (after falling 109)
              = Some (Some falling_signal, after falling 110))
    by (vm_compute; reflexivity).
  assert (R : run CONFIG (frames falling 111 4) (after falling 110)
              = Some (repeat None 4, after falling 114))
    by (vm_compute; reflexivity).
  assert (S : Forall (fun o : option signal => o = None) (repeat None 4))
    by (repeat constructor).
  split; [exact E|]. split; [exact R|]. split; [vm_compute; reflexivity|].
  refine (proj1 (cooldown_after_signal CONFIG _ _ _ _ E _ _ _ R S
                   (market falling 115)) _).
  vm_compute. reflexivity.
Defined.

(** The loop emits for the first prior pivot, in the order visited, that
    qualifies and passes the pattern test; the confidence does not depend
    on the prior pivot, so a confidence below the minimum silences every
    later match as well. *)
Lemma divergence_scan_first_passing cfg df self k pivot prevs r :
  iloc df k = Some r ->
  divergence_scan cfg df self k pivot prevs
  = Some
      match find (fun prev => qualifies pivot prev && pattern_test pivot prev)
                 prevs with
      | Some prev =>
          if Qle_bool (MIN_CONFIDENCE cfg)
                      (calculate_confidence df k (direction pivot))
          then (Some (signal_of pivot prev
                        (calculate_confidence df k (direction pivot))
                        (atr r)),
                {| recent_pivots := recent_pivots self;
                   last_signal_time := Some k |})
          else (None, self)
      | None => (None, self)
      end.
Proof.
  intros Hr. induction prevs as [|prev rest IH]; simpl; [reflexivity|].
  unfold qualifies at 1, pattern_test at 1.
  destruct (pivot_type_eqb (p_type prev) (p_type pivot)); simpl;
    [|exact IH].
  destruct (p_index pivot - p_index prev <? 8); simpl; [exact IH|].
  destruct (bullish_divergence pivot prev) eqn:Bu; simpl.
  - assert (D : direction pivot = true).
    { unfold bullish_divergence in Bu. unfold direction.
      destruct (pivot_type_eqb (p_type pivot) PivotLow);
        [reflexivity | discriminate]. }
    rewrite D in *. rewrite Hr.
    destruct (Qle_bool (MIN_CONFIDENCE cfg) (calculate_confidence df k true))
      eqn:C.
    + unfold signal_of. rewrite D. reflexivity.
    + rewrite IH. destruct (find _ rest); reflexivity.
  - destruct (bearish_divergence pivot prev) eqn:Be; [|exact IH].
    assert (D : direction pivot = false).
    { unfold bearish_divergence in Be. unfold direction.
      destruct (p_type pivot); [reflexivity | discriminate]. }
    rewrite D in *. rewrite Hr.
    destruct (Qle_bool (MIN_CONFIDENCE cfg) (calculate_confidence df k false))
      eqn:C.
    + unfold signal_of. rewrite D. reflexivity.
    + rewrite IH. destruct (find _ rest); reflexivity.
Qed.

(** Appending the candidate and pruning keeps the candidate, last. *)
Lemma store_pivot_last cfg self k pivot :
  p_index pivot = k ->
  recent_pivots (store_pivot cfg self k pivot)
  = filter (fun p => k - p_index p <=? Z.of_nat (MAX_LOOKBACK_BARS cfg))
           (recent_pivots self) ++ [pivot].
Proof.
  intros Hk. unfold store_pivot. simpl. rewrite filter_app. simpl.
  replace (k - p_index pivot <=? Z.of_nat (MAX_LOOKBACK_BARS cfg)) with true
    by (symmetry; apply Z.leb_le; lia).
  reflexivity.
Qed.

(** C2 as worded fails: in the [rebound] market the candidate low at bar
    116 is first tested against the nearest qualifying low, at bar 106,
    which fails the pattern test (95 is not below 90); the call goes on to
    the low at bar 96 and emits a signal. *)
Lemma nearest_pivot_only_fails :
  ~ (forall cfg df self ph pl r prev,
       let k := candidate cfg df in
       IndicatorCalculator.find_pivot_high (map high df) k
                                           (PIVOT_LOOKBACK cfg) = Some ph ->
       IndicatorCalculator.find_pivot_low (map low df) k
                                          (PIVOT_LOOKBACK cfg) = Some pl ->
       ph || pl = true ->
       iloc df k = Some r ->
       let pivot := make_pivot k ph r in
       find (qualifies pivot)
            (rev (removelast (recent_pivots (store_pivot cfg self k pivot))))
       = Some prev ->
       pattern_test pivot prev = false ->
       exists self', detect_signal cfg df self = Some (None, self')).
Proof.
  intros H.
  destruct (H CONFIG (market rebound 120) (after rebound 119)
              false true (trough_row 116 95 32)
              {| p_index := 106; p_type := PivotLow; p_price := 90;
                 p_rsi := Some 30%Q; p_time := 106 |})
    as [self' E]; try (vm_compute; reflexivity).
  vm_compute in E. discriminate.
Qed.

(** C2, amended.  A call that finds a pivot at the candidate position
    appends it to the window, prunes, and visits the earlier pivots of the
    window newest first; it emits a signal for the first of them that has
    the candidate's type, lies at least 8 bars back and passes the
    divergence pattern test (pivots that fail are passed over, earlier ones
    are tried), provided the confidence reaches the configured minimum;
    otherwise it returns no signal.  In every case the candidate is the
    last pivot of the window afterwards. *)
Theorem divergence_first_passing_pivot cfg df self ph pl r :
  let k := candidate cfg df in
  100 <= len df ->
  cooling_down self (len df) = false ->
  Z.of_nat (PIVOT_LOOKBACK cfg) <= k ->
  IndicatorCalculator.find_pivot_high (map high df) k (PIVOT_LOOKBACK cfg)
  = Some ph ->
  IndicatorCalculator.find_pivot_low (map low df) k (PIVOT_LOOKBACK cfg)
  = Some pl ->
  ph || pl = true ->
  iloc df k = Some r ->
  let pivot := make_pivot k ph r in
  let window := recent_pivots (store_pivot cfg self k pivot) in
  let confidence := calculate_confidence df k (direction pivot) in
  (exists older, window = older ++ [pivot]) /\
  detect_signal cfg df self
  = Some
      match find (fun prev => qualifies pivot prev && pattern_test pivot prev)
                 (rev (removelast window)) with
      | Some prev =>
          if Qle_bool (MIN_CONFIDENCE cfg) confidence
          then (Some (signal_of pivot prev confidence (atr r)),
                {| recent_pivots := window; last_signal_time := Some k |})
          else (None, {| recent_pivots := window;
                         last_signal_time := last_signal_time self |})
      | None => (None, {| recent_pivots := window;
                          last_signal_time := last_signal_time self |})
      end.
Proof.
  intros k H100 Hc HL Hh Hl Hp Hr pivot window confidence.
  split.
  - eexists. apply store_pivot_last. reflexivity.
  - unfold detect_signal. fold (candidate cfg df). fold k.
    replace (len df <? 100) with false by (symmetry; apply Z.ltb_ge; lia).
    rewrite Hc.
    replace (k <? Z.of_nat (PIVOT_LOOKBACK cfg)) with false
      by (symmetry; apply Z.ltb_ge; lia).
    rewrite Hh, Hl, Hr.
    replace (negb ph && negb pl) with false
      by (destruct ph, pl; simpl in *; congruence).
    fold pivot. rewrite (divergence_scan_first_passing _ _ _ _ _ _ r Hr).
    reflexivity.
Qed.

Lemma divergence_witness :
  100 <= len (market rebound 120) /\
  cooling_down (after rebound 119) (len (market rebound 120))
  = false /\
  iloc (market rebound 120) (candidate CONFIG (market rebound 120))
  = Some (trough_row 116 95 32) /\
  detect_signal CONFIG (market rebound 120) (after rebound 119)
  = Some (Some rebound_signal, after rebound 120).
Proof.
  assert (H1 : 100 <= len (market rebound 120))
    by (vm_compute; discriminate).
  assert (H2 : cooling_down (after rebound 119)
                            (len (market rebound 120)) = false)
    by (vm_compute; reflexivity).
  assert (H3 : iloc (market rebound 120)
                    (candidate CONFIG (market rebound 120))
               = Some (trough_row 116 95 32))
    by (vm_compute; reflexivity).
  assert (H4 : Z.of_nat (PIVOT_LOOKBACK CONFIG)
               <= candidate CONFIG (market rebound 120))
    by (vm_compute; discriminate).
  assert (H5 : IndicatorCalculator.find_pivot_high
                 (map high (market rebound 120))
                 (candidate CONFIG (market rebound 120))
                 (PIVOT_LOOKBACK CONFIG) = Some false)
    by (vm_compute; reflexivity).
  assert (H6 : IndicatorCalculator.find_pivot_low
                 (map low (market rebound 120))
                 (candidate CONFIG (market rebound 120))
                 (PIVOT_LOOKBACK CONFIG) = Some true)
    by (vm_compute; reflexivity).
  repeat (split; [assumption|]).
  pose proof (divergence_first_passing_pivot
                CONFIG (market rebound 120) (after rebound 119)
                false true (trough_row 116 95 32) H1 H2 H4 H5 H6 eq_refl H3)
    as [_ E].
  rewrite E. vm_compute. reflexivity.
Defined.

End Detector.

(* ------------------------------------------------------------------------- *)
(** ** Rounding to 6 decimal places *)

Section Rounding.
Import Py RoundingVocabulary.
Open Scope Q_scope.

(** Rounding to the nearest integer moves a number by at most one half. *)
Lemma round_half_even_error (y : Q) :
  - (1 # 2) <= inject_Z (round_half_even y) - y <= 1 # 2.
Proof.
  unfold round_half_even.
  pose proof (Qfloor_le y) as Hlo.
  pose proof (Qlt_floor y) as Hhi.
  rewrite inject_Z_plus in Hhi. change (inject_Z 1) with 1 in Hhi.
  destruct (Qltb (y - inject_Z (Qfloor y)) (1 # 2)) eqn:E1;
    [apply Qltb_lt in E1; split; lra | apply Qltb_ge in E1].
  destruct (Qltb (1 # 2) (y - inject_Z (Qfloor y))) eqn:E2;
    [apply Qltb_lt in E2 | apply Qltb_ge in E2].
  - rewrite inject_Z_plus. change (inject_Z 1) with 1. split; lra.
  - destruct (Z.even (Qfloor y)).
    + split; lra.
    + rewrite inject_Z_plus. change (inject_Z 1) with 1. split; lra.
Qed.

(** It gives a positive integer exactly above one half. *)
Lemma round_half_even_positive (y : Q) :
  (0 < round_half_even y)%Z <-> 1 # 2 < y.
Proof.
  unfold round_half_even.
  pose proof (Qfloor_le y) as Hlo.
  pose proof (Qlt_floor y) as Hhi.
  rewrite inject_Z_plus in Hhi. change (inject_Z 1) with 1 in Hhi.
  set (f := Qfloor y) in *.
  assert (Hf0 : (f <= 0)%Z -> inject_Z f <= 0)
    by (intros H; change 0 with (inject_Z 0); rewrite <- Zle_Qle; exact H).
  assert (Hf1 : (1 <= f)%Z -> 1 <= inject_Z f)
    by (intros H; change 1 with (inject_Z 1); rewrite <- Zle_Qle; exact H).
  assert (Hfm : (f <= -1)%Z -> inject_Z f <= - (1))
    by (intros H; change (- (1)) with (inject_Z (-1)); rewrite <- Zle_Qle;
        exact H).
  destruct (Qltb (y - inject_Z f) (1 # 2)) eqn:E1;
    [apply Qltb_lt in E1 | apply Qltb_ge in E1].
  - split; intros H.
    + assert (1 <= inject_Z f) by (apply Hf1; lia). lra.
    + destruct (Z_lt_ge_dec 0 f) as [Hp|Hp]; [exact Hp|].
      assert (inject_Z f <= 0) by (apply Hf0; lia). lra.
  - destruct (Qltb (1 # 2) (y - inject_Z f)) eqn:E2;
      [apply Qltb_lt in E2 | apply Qltb_ge in E2].
    + split; intros H.
      * destruct (Z_lt_ge_dec f 0) as [Hn|Hn]; [lia|].
        destruct (Z.eq_dec f 0) as [H0|H0].
        -- rewrite H0 in E2. change (inject_Z 0) with 0 in E2. lra.
        -- assert (1 <= inject_Z f) by (apply Hf1; lia). lra.
      * destruct (Z_lt_ge_dec f 0) as [Hn|Hn]; [|lia].
        assert (inject_Z f <= - (1)) by (apply Hfm; lia). lra.
    + assert (Eh : y - inject_Z f == 1 # 2) by lra.
      destruct (Z.even f) eqn:Ev.
      * split; intros H.
        -- assert (1 <= inject_Z f) by (apply Hf1; lia). lra.
        -- destruct (Z_lt_ge_dec 0 f) as [Hp|Hp]; [exact Hp|].
           destruct (Z.eq_dec f 0) as [H0|H0].
           ++ rewrite H0 in Eh. change (inject_Z 0) with 0 in Eh. lra.
           ++ assert (inject_Z f <= - (1)) by (apply Hfm; lia). lra.
      * split; intros H.
        -- destruct (Z.eq_dec f 0) as [H0|H0];
             [rewrite H0 in Ev; discriminate|].
           assert (1 <= inject_Z f) by (apply Hf1; lia). lra.
        -- destruct (Z_lt_ge_dec f 0) as [Hn|Hn]; [|lia].
           assert (inject_Z f <= - (1)) by (apply Hfm; lia). lra.
Qed.

Lemma round6_error (x : Q) :
  - (5 # 10000000) <= round6 x - x <= 5 # 10000000.
Proof.
  unfold round6.
  pose proof (round_half_even_error (x * 1000000)) as [H1 H2].
  set (n := inject_Z (round_half_even (x * 1000000))) in *.
  assert (E : n / 1000000 == n * (1 # 1000000)) by (unfold Qdiv; reflexivity).
  rewrite E. split; lra.
Qed.

Lemma round6_positive (x : Q) : 0 < round6 x <-> 5 # 10000000 < x.
Proof.
  unfold round6.
  pose proof (round_half_even_positive (x * 1000000)) as H.
  set (n := round_half_even (x * 1000000)) in *.
  assert (E : inject_Z n / 1000000 == inject_Z n * (1 # 1000000))
    by (unfold Qdiv; reflexivity).
  rewrite E. split; intros Hp.
  - assert (Hn : 0 < inject_Z n) by lra.
    change 0 with (inject_Z 0) in Hn. rewrite <- Zlt_Qlt in Hn.
    apply H in Hn. lra.
  - assert (Hn : (0 < n)%Z) by (apply H; lra).
    rewrite Zlt_Qlt in Hn. change (inject_Z 0) with 0 in Hn. lra.
Qed.





End Rounding.

(* ------------------------------------------------------------------------- *)
(** ** The candle aggregator *)

Section Aggregator.
Import Py LiveDataCollector CandleVocabulary RoundingVocabulary
       CollectorSamples.

(** One more bar folded into an open candle that it does not close. *)
Lemma on_bar_merge self w start b :
  current_candle self = Some w ->
  candle_start self = Some start ->
  timestamp b - start < interval self ->
  bars_in_candle w + 1 < 5 ->
  current_candle (on_bar self b) = Some (merge w b) /\
  candle_start (on_bar self b) = Some start /\
  candles (on_bar self b) = candles self /\
  interval (on_bar self b) = interval self.
Proof.
  intros Hw Hs Ht Hn. unfold on_bar, process_minute_bar. simpl.
  rewrite Hw, Hs.
  replace (interval self <=? timestamp b - start) with false
    by (symmetry; apply Z.leb_gt; lia).
  replace (5 <=? bars_in_candle w + 1) with false
    by (symmetry; apply Z.leb_gt; lia).
  simpl. auto.
Qed.

(** A bar that closes the open candle is folded into it first. *)
Lemma on_bar_close self w start b :
  current_candle self = Some w ->
  candle_start self = Some start ->
  interval self <= timestamp b - start \/ 5 <= bars_in_candle w + 1 ->
  candles (on_bar self b)
  = candles self
    ++ [ {| c_timestamp := start;
            c_open := w_open w;
            c_high := Py.max (w_high w) (high b);
            c_low := Py.min (w_low w) (low b);
            c_close := close b;
            c_volume := round6 (w_volume w + volume b) |} ].
Proof.
  intros Hw Hs Hc. unfold on_bar, process_minute_bar. simpl.
  rewrite Hw, Hs.
  replace ((interval self <=? timestamp b - start)
           || (5 <=? bars_in_candle w + 1)) with true; [reflexivity|].
  symmetry. apply orb_true_iff.
  destruct Hc; [left | right]; apply Z.leb_le; assumption.
Qed.

(** The state right after a bar has closed a candle. *)
Lemma on_bar_close_state self w start b :
  current_candle self = Some w ->
  candle_start self = Some start ->
  interval self <= timestamp b - start \/ 5 <= bars_in_candle w + 1 ->
  current_candle (on_bar self b) = Some (seed b) /\
  candle_start (on_bar self b) = Some (timestamp b) /\
  interval (on_bar self b) = interval self.
Proof.
  intros Hw Hs Hc. unfold on_bar, process_minute_bar. simpl.
  rewrite Hw, Hs.
  replace ((interval self <=? timestamp b - start)
           || (5 <=? bars_in_candle w + 1)) with true; [simpl; auto|].
  symmetry. apply orb_true_iff.
  destruct Hc; [left | right]; apply Z.leb_le; assumption.
Qed.





(** The first bar opens a candle. *)
Lemma on_bar_seed self b :
  current_candle self = None ->
  current_candle (on_bar self b) = Some (seed b) /\
  candle_start (on_bar self b) = Some (timestamp b) /\
  candles (on_bar self b) = candles self /\
  interval (on_bar self b) = interval self.
Proof.
  intros Hn. unfold on_bar, process_minute_bar. simpl.
  rewrite Hn. simpl. auto.
Qed.





(** C6 as worded fails: the bar with open 1, high 3, low 0, close 2 seeds a
    candle whose open is 1, not the close 2. *)
Lemma seed_from_close_fails :
  ~ (forall self b,
       current_candle self = None ->
       exists w,
         current_candle (on_bar self b) = Some w /\
         (w_open w == close b)%Q /\ (w_high w == close b)%Q /\
         (w_low w == close b)%Q /\ (w_close w == close b)%Q /\
         (w_volume w == volume b)%Q /\ bars_in_candle w = 1 /\
         candle_start (on_bar self b) = Some (timestamp b)).
Proof.
  intros H.
  destruct (H init spread_bar eq_refl) as [w [Hw [Ho _]]].
  vm_compute in Hw. injection Hw as <-.
  vm_compute in Ho. discriminate.
Qed.

(** C6, amended.  On the first bar received while no candle is open, the
    working candle is seeded with the bar's own open, high, low and close,
    with its volume and a count of 1, and the period starts at the bar's
    timestamp; no candle is completed. *)
Theorem first_bar_seeds_candle (self : collector) (b : bar) :
  current_candle self = None ->
  exists w,
    current_candle (on_bar self b) = Some w /\
    w_open w = open b /\ w_high w = high b /\
    w_low w = low b /\ w_close w = close b /\
    w_volume w = volume b /\ bars_in_candle w = 1 /\
    w_timestamp w = timestamp b /\
    candle_start (on_bar self b) = Some (timestamp b) /\
    candles (on_bar self b) = candles self.
Proof.
  intros Hn. exists (seed b). unfold on_bar, process_minute_bar. simpl.
  rewrite Hn. simpl. repeat split.
Qed.

Lemma first_bar_witness :
  current_candle init = None /\
  exists w,
    current_candle (on_bar init spread_bar) = Some w /\
    w_open w = 1%Q /\ w_high w = 3%Q /\ w_low w = 0%Q /\ w_close w = 2%Q.
Proof.
  split; [reflexivity|].
  destruct (first_bar_seeds_candle init spread_bar eq_refl)
    as [w [Hw [Ho [Hh [Hl [Hc _]]]]]].
  exists w. repeat split; assumption.
Defined.

End Aggregator.

(* ------------------------------------------------------------------------- *)
(** ** Position sizing *)

Section Sizing.
Import Py Config SignalDetector LiveTrader RoundingVocabulary TraderSamples.
Open Scope Q_scope.




(** The distance between entry and stop, whichever side the stop is on. *)
Lemma stop_distance_abs (bullish : bool) (e d : Q) :
  Qabs (e - (if bullish then e - d else e + d)) == Qabs d.
Proof.
  destruct bullish.
  - assert (E : e - (e - d) == d) by lra. rewrite E. reflexivity.
  - assert (E : e - (e + d) == - d) by lra. rewrite E. apply Qabs_opp.
Qed.



End Sizing.

(* ------------------------------------------------------------------------- *)
(** ** The RSI column *)

Section Rsi.
Import Py IndicatorCalculator RsiVocabulary RsiSamples.
Open Scope Q_scope.

Lemma nth_error_diff_from s : forall prev j,
  nth_error (diff_from prev s) j
  = option_map (fun x => Some (x - nth j (prev :: s) 0)%Q) (nth_error s j).
Proof.
  induction s as [|x s IH]; intros prev j.
  - destruct j; reflexivity.
  - destruct j as [|j]; [reflexivity|].
    simpl nth_error. rewrite IH. reflexivity.
Qed.

(** [diff] position by position. *)
Lemma nth_error_diff (s : list Q) (j : nat) :
  (j < length s)%nat ->
  nth_error (diff s) j
  = Some match j with
         | O => None
         | S k => Some (nth j s 0 - nth k s 0)%Q
         end.
Proof.
  intros Hj. destruct s as [|x s]; [simpl in Hj; lia|].
  destruct j as [|j]; [reflexivity|].
  simpl diff. simpl nth_error. rewrite nth_error_diff_from.
  simpl in Hj.
  rewrite (nth_error_nth' s 0%Q) by lia. reflexivity.
Qed.

Lemma length_diff_from s : forall prev, length (diff_from prev s) = length s.
Proof. induction s; intros; simpl; auto. Qed.

Lemma length_diff (s : list Q) : length (diff s) = length s.
Proof. destruct s; simpl; [|rewrite length_diff_from]; reflexivity. Qed.

(** The gain column and the loss column are the step gains and losses. *)
Lemma gain_column (close : list Q) :
  where_ gt0 0 (diff close)
  = map (fun j => Some (step_gain close j)) (seq 0 (length close)).
Proof.
  apply nth_error_ext. intros j. unfold where_.
  rewrite !nth_error_map, nth_error_seq.
  destruct (Nat.ltb_spec j (length close)) as [Hj|Hj].
  - rewrite nth_error_diff by exact Hj. simpl.
    destruct j as [|k]; simpl; [reflexivity|].
    destruct (Qltb 0 (nth (S k) close 0 - nth k close 0)); reflexivity.
  - replace (nth_error (diff close) j) with (@None (option Q));
      [reflexivity|].
    symmetry. apply nth_error_None. rewrite length_diff. exact Hj.
Qed.

Lemma loss_column (close : list Q) :
  neg (where_ lt0 0 (diff close))
  = map (fun j => Some (step_loss close j)) (seq 0 (length close)).
Proof.
  apply nth_error_ext. intros j. unfold neg, where_.
  rewrite !nth_error_map, nth_error_seq.
  destruct (Nat.ltb_spec j (length close)) as [Hj|Hj].
  - rewrite nth_error_diff by exact Hj. simpl.
    destruct j as [|k]; simpl; [reflexivity|].
    destruct (Qltb (nth (S k) close 0 - nth k close 0) 0); reflexivity.
  - replace (nth_error (diff close) j) with (@None (option Q));
      [reflexivity|].
    symmetry. apply nth_error_None. rewrite length_diff. exact Hj.
Qed.

Lemma firstn_seq_le (p k m : nat) :
  (p <= m)%nat -> firstn p (seq k m) = seq k p.
Proof.
  intros H. replace m with (p + (m - p))%nat by lia.
  rewrite seq_app, firstn_app, length_seq.
  replace (p - p)%nat with 0%nat by lia.
  rewrite firstn_O, app_nil_r.
  rewrite <- (length_seq p k) at 1. apply firstn_all.
Qed.

Lemma window_sum_defined (f : nat -> Q) (js : list nat) :
  window_sum (map (fun j => Some (f j)) js)
  = Some (fold_right Qplus 0%Q (map f js)).
Proof.
  induction js as [|j js IH]; simpl; [reflexivity|].
  rewrite IH. reflexivity.
Qed.

(** The rolling mean of a column without NaN is the trailing mean. *)
Lemma rolling_mean_at_defined (f : nat -> Q) (period n i : nat) :
  (0 < period)%nat -> (i < n)%nat ->
  rolling_mean_at period (map (fun j => Some (f j)) (seq 0 n)) i
  = if (i + 1 <? period)%nat then None
    else Some (trailing_mean f period i).
Proof.
  intros Hp Hi. unfold rolling_mean_at.
  replace (period =? 0)%nat with false by (symmetry; apply Nat.eqb_neq; lia).
  simpl orb.
  destruct (Nat.ltb_spec (i + 1) period) as [Hw|Hw]; [reflexivity|].
  rewrite skipn_map, firstn_map, skipn_seq.
  rewrite firstn_seq_le by lia.
  rewrite window_sum_defined. reflexivity.
Qed.

Lemma nth_error_rolling_mean (f : nat -> Q) (period n i : nat) :
  (0 < period)%nat -> (i < n)%nat ->
  nth_error (rolling_mean period (map (fun j => Some (f j)) (seq 0 n))) i
  = Some (if (i + 1 <? period)%nat then None
          else Some (trailing_mean f period i)).
Proof.
  intros Hp Hi. unfold rolling_mean.
  rewrite nth_error_map, length_map, length_seq, nth_error_seq.
  replace (i <? n)%nat with true by (symmetry; apply Nat.ltb_lt; exact Hi).
  simpl. rewrite rolling_mean_at_defined by assumption. reflexivity.
Qed.

Lemma length_rolling_mean period s :
  length (rolling_mean period s) = length s.
Proof. unfold rolling_mean. rewrite length_map, length_seq. reflexivity. Qed.

Lemma nth_error_div a : forall b i,
  nth_error (div a b) i
  = match nth_error a i, nth_error b i with
    | Some x, Some y =>
        Some match x, y with
             | Some u, Some v => Some (u / v)%Q
             | _, _ => None
             end
    | _, _ => None
    end.
Proof.
  induction a as [|x a IH]; intros b i.
  - destruct i; reflexivity.
  - destruct b as [|y b].
    + destruct i; simpl; [reflexivity|].
      destruct (nth_error a i); reflexivity.
    + destruct i; simpl; [reflexivity | apply IH].
Qed.

Lemma length_div a : forall b,
  length a = length b -> length (div a b) = length a.
Proof.
  induction a as [|x a IH]; intros [|y b] H; simpl in *; try lia.
  rewrite IH by lia. reflexivity.
Qed.

Lemma calculate_rsi_at (close : list Q) (period i : nat) :
  (0 < period)%nat -> (i < length close)%nat ->
  nth_error (calculate_rsi close period) i
  = Some (rsi_spec close period i).
Proof.
  intros Hp Hi. unfold calculate_rsi, replace_0_nan.
  rewrite gain_column, loss_column.
  rewrite nth_error_map, nth_error_div, nth_error_map.
  rewrite !nth_error_rolling_mean by assumption.
  unfold rsi_spec. simpl.
  destruct (i + 1 <? period)%nat; [reflexivity|].
  destruct (Qeq_bool (trailing_mean (step_loss close) period i) 0);
    reflexivity.
Qed.

(** C8.  [calculate_rsi] is, bar by bar, [100 - 100/(1 + avg_gain/avg_loss)]
    with [avg_gain] and [avg_loss] the simple trailing means of the step
    gains and of the step loss magnitudes over [period] bars; it is NaN
    until [period] bars are there, and NaN, not 100, at every bar where the
    average loss is zero. *)
Theorem calculate_rsi_rolling_means (close : list Q) (period : nat) :
  (0 < period)%nat ->
  length (calculate_rsi close period) = length close /\
  (forall i, (i < length close)%nat ->
             nth_error (calculate_rsi close period) i
             = Some (rsi_spec close period i)) /\
  (forall i, (i < length close)%nat ->
             (trailing_mean (step_loss close) period i == 0)%Q ->
             nth_error (calculate_rsi close period) i = Some None) /\
  (forall i, (i < length close)%nat -> (period <= i + 1)%nat ->
             ~ (trailing_mean (step_loss close) period i == 0)%Q ->
             nth_error (calculate_rsi close period) i
             = Some (Some (100 - 100 /
                   (1 + trailing_mean (step_gain close) period i
                        / trailing_mean (step_loss close) period i))%Q)).
Proof.
  intros Hp. split; [|split; [|split]].
  - unfold calculate_rsi. rewrite length_map, length_div.
    + rewrite length_rolling_mean. unfold where_.
      rewrite length_map. apply length_diff.
    + unfold replace_0_nan. rewrite length_map, !length_rolling_mean.
      unfold neg, where_. rewrite !length_map. reflexivity.
  - intros i Hi. apply calculate_rsi_at; assumption.
  - intros i Hi Hz. rewrite calculate_rsi_at by assumption.
    unfold rsi_spec. destruct (i + 1 <? period)%nat; [reflexivity|].
    apply Qeq_bool_iff in Hz. simpl. rewrite Hz. reflexivity.
  - intros i Hi Hw Hnz. rewrite calculate_rsi_at by assumption.
    unfold rsi_spec.
    replace (i + 1 <? period)%nat with false
      by (symmetry; apply Nat.ltb_ge; exact Hw).
    simpl.
    destruct (Qeq_bool (trailing_mean (step_loss close) period i) 0) eqn:E;
      [|reflexivity].
    apply Qeq_bool_iff in E. contradiction.
Qed.

Lemma calculate_rsi_witness :
  (0 < 3)%nat /\
  (trailing_mean (step_loss rising) 3 3 == 0)%Q /\
  nth_error (calculate_rsi rising 3) 3 = Some None /\
  exists v, nth_error (calculate_rsi rising 3) 4 = Some (Some v)
            /\ (v == 200 # 3)%Q.
Proof.
  destruct (calculate_rsi_rolling_means rising 3) as [_ [_ [Hz Hd]]];
    [lia|].
  split; [lia|]. split; [reflexivity|]. split.
  - apply Hz; [simpl; lia | reflexivity].
  - eexists. split.
    + apply Hd; [simpl; lia | lia | vm_compute; discriminate].
    + vm_compute. reflexivity.
Defined.

End Rsi.

(* ------------------------------------------------------------------------- *)
(** ** The ATR column *)

Section Atr.
Import Py IndicatorCalculator RsiVocabulary AtrVocabulary.
Open Scope Q_scope.
Context {R : Type} (high low close : R -> Q).

Lemma true_range_tail (c : Q) (df : list R) :
  map (fun t => nan_max (nan_max (fst t) (fst (snd t))) (snd (snd t)))
      (combine (map (fun r => Some (high r - low r)) df)
         (combine
            (map (fun hc => abs_diff (fst hc) (snd hc))
               (combine (map high df)
                        (map Some (removelast (c :: map close df)))))
            (map (fun lc => abs_diff (fst lc) (snd lc))
               (combine (map low df)
                        (map Some (removelast (c :: map close df)))))))
  = map Some (true_ranges_from high low close c df).
Proof.
  revert c. induction df as [|r df IH]; intros c; [reflexivity|].
  change (removelast (c :: map close (r :: df)))
    with (c :: removelast (close r :: map close df)).
  cbn [map combine fst snd true_ranges_from].
  rewrite IH. reflexivity.
Qed.

(** The true-range column holds no NaN: it is the list of true ranges. *)
Lemma true_range_values (df : list R) :
  true_range high low close df = map Some (true_ranges high low close df).
Proof.
  destruct df as [|r df]; [reflexivity|].
  unfold true_range, shift. simpl map at 4.
  change (map close (r :: df)) with (close r :: map close df).
  cbn [map combine fst snd abs_diff option_map nan_max true_ranges].
  f_equal. apply true_range_tail.
Qed.

Lemma map_Some_nth (l : list Q) :
  map Some l = map (fun j => Some (nth j l 0)) (seq 0 (length l)).
Proof.
  apply nth_error_ext. intros j.
  rewrite !nth_error_map, nth_error_seq.
  destruct (Nat.ltb_spec j (length l)) as [Hj|Hj].
  - rewrite (nth_error_nth' l 0 Hj). reflexivity.
  - replace (nth_error l j) with (@None Q); [reflexivity|].
    symmetry. apply nth_error_None. exact Hj.
Qed.

Lemma length_true_ranges_from (df : list R) :
  forall c, length (true_ranges_from high low close c df) = length df.
Proof. induction df; intros; simpl; auto. Qed.

Lemma length_true_ranges (df : list R) :
  length (true_ranges high low close df) = length df.
Proof.
  destruct df; simpl; [|rewrite length_true_ranges_from]; reflexivity.
Qed.

Lemma atr_column (df : list R) (period : nat) :
  (0 < period)%nat ->
  length (calculate_atr high low close df period) = length df /\
  forall i, (i < length df)%nat ->
    nth_error (calculate_atr high low close df period) i
    = Some (if (i + 1 <? period)%nat then None
            else Some (trailing_mean
                         (fun j => nth j (true_ranges high low close df) 0)
                         period i)).
Proof.
  intros Hp. unfold calculate_atr. rewrite true_range_values. split.
  - rewrite length_rolling_mean, length_map. apply length_true_ranges.
  - intros i Hi. rewrite map_Some_nth, length_true_ranges.
    apply nth_error_rolling_mean; assumption.
Qed.

(** The pandas pipeline of [calculate_atr] is, bar by bar, the simple
    trailing mean of the true range over [period] bars, NaN until [period]
    bars are there. *)
Theorem calculate_atr_trailing_mean (df : list R) (period : nat) :
  (0 < period)%nat ->
  length (calculate_atr high low close df period) = length df /\
  forall i, (i < length df)%nat ->
    nth_error (calculate_atr high low close df period) i
    = Some (if (i + 1 <? period)%nat then None
            else Some (trailing_mean
                         (fun j => nth j (true_ranges high low close df) 0)
                         period i)).
Proof. apply atr_column. Qed.

(** Every true range after the first bar is non-negative. *)
Lemma true_ranges_from_nonneg (df : list R) : forall c j,
  0 <= nth j (true_ranges_from high low close c df) 0.
Proof.
  induction df as [|r df IH]; intros c j.
  - destruct j; simpl; lra.
  - destruct j as [|j]; simpl; [|apply IH].
    unfold true_range_of, Py.max.
    pose proof (Qabs_nonneg (high r - c)).
    pose proof (Qabs_nonneg (low r - c)).
    repeat match goal with
           | |- context [if Qltb ?a ?b then _ else _] =>
               let E := fresh in destruct (Qltb a b) eqn:E;
               [apply Qltb_lt in E | apply Qltb_ge in E]
           end; lra.
Qed.

Lemma fold_sum_nonneg (f : nat -> Q) (js : list nat) :
  (forall j, In j js -> 0 <= f j) ->
  0 <= fold_right Qplus 0 (map f js).
Proof.
  induction js as [|j js IH]; intros H; simpl; [lra|].
  assert (0 <= f j) by (apply H; left; reflexivity).
  assert (0 <= fold_right Qplus 0 (map f js))
    by (apply IH; intros; apply H; right; assumption).
  lra.
Qed.

Lemma trailing_mean_nonneg (f : nat -> Q) (period i : nat) :
  (0 < period)%nat -> (period <= i + 1)%nat ->
  (forall j, (i + 1 - period <= j <= i)%nat -> 0 <= f j) ->
  0 <= trailing_mean f period i.
Proof.
  intros Hp Hw H. unfold trailing_mean.
  apply Qle_shift_div_l.
  - change 0 with (inject_Z 0). rewrite <- Zlt_Qlt.
    apply (Nat2Z.inj_lt 0 period). exact Hp.
  - rewrite Qmult_0_l. apply fold_sum_nonneg.
    intros j Hj. apply in_seq in Hj. apply H. lia.
Qed.

Lemma true_ranges_window_nonneg (df : list R) (period i j : nat) :
  (period <= i)%nat
  \/ (exists r, nth_error df 0 = Some r /\ low r <= high r) ->
  (i + 1 - period <= j <= i)%nat ->
  0 <= nth j (true_ranges high low close df) 0.
Proof.
  intros Hfirst Hj. destruct df as [|r df]; [destruct j; simpl; lra|].
  destruct j as [|j].
  - destruct Hfirst as [Hge | [r0 [E Hr]]]; [lia|].
    simpl in E. injection E as <-. simpl. lra.
  - simpl. apply true_ranges_from_nonneg.
Qed.

(** A defined entry of the ATR column is not negative when its window stays
    clear of the first bar or the first bar has [low <= high]. *)
Lemma atr_entry_nonneg (df : list R) (period i : nat) (v : Q) :
  (0 < period)%nat ->
  (period <= i)%nat
  \/ (exists r, nth_error df 0 = Some r /\ low r <= high r) ->
  nth_error (calculate_atr high low close df period) i = Some (Some v) ->
  0 <= v.
Proof.
  intros Hp Hfirst Hv.
  destruct (atr_column df period Hp) as [Hlen H].
  assert (Hi : (i < length df)%nat).
  { rewrite <- Hlen. apply nth_error_Some. congruence. }
  rewrite (H i Hi) in Hv.
  destruct (Nat.ltb_spec (i + 1) period) as [Hw|Hw]; [discriminate|].
  injection Hv as <-.
  apply trailing_mean_nonneg; [exact Hp | exact Hw |].
  intros j Hj. apply (true_ranges_window_nonneg df period i j Hfirst Hj).
Qed.

(** The ATR is never negative once it is defined, provided its window does
    not reach the first bar or the first bar has [low <= high]. *)
Theorem calculate_atr_nonneg (df : list R) (period i : nat) :
  (0 < period)%nat -> (i < length df)%nat -> (period <= i + 1)%nat ->
  (period <= i)%nat
  \/ (exists r, nth_error df 0 = Some r /\ low r <= high r) ->
  exists v, nth_error (calculate_atr high low close df period) i
            = Some (Some v) /\ 0 <= v.
Proof.
  intros Hp Hi Hw Hfirst.
  destruct (atr_column df period Hp) as [_ H].
  pose proof (H i Hi) as Hv.
  replace (i + 1 <? period)%nat with false in Hv
    by (symmetry; apply Nat.ltb_ge; exact Hw).
  eexists. split; [exact Hv|].
  apply (atr_entry_nonneg df period i _ Hp Hfirst Hv).
Qed.

End Atr.

(* ------------------------------------------------------------------------- *)
(** ** The EMA columns *)

Section Ema.
Import Py IndicatorCalculator.
Open Scope Q_scope.

(** The smoothing factor of a span of at least 1 lies in (0, 1]. *)
Lemma alpha_range (period : nat) :
  (1 <= period)%nat ->
  0 < 2 / (inject_Z (Z.of_nat period) + 1)
  /\ 2 / (inject_Z (Z.of_nat period) + 1) <= 1.
Proof.
  intros Hp.
  assert (H1 : 1 <= inject_Z (Z.of_nat period)).
  { change 1 with (inject_Z 1). rewrite <- Zle_Qle.
    apply (Nat2Z.inj_le 1 period). exact Hp. }
  split.
  - apply Qlt_shift_div_l; lra.
  - apply Qle_shift_div_r; lra.
Qed.

(** One step of the recursion stays between the bounds of its inputs. *)
Lemma ewm_step_bounded (alpha prev x lo hi : Q) :
  0 < alpha -> alpha <= 1 ->
  lo <= prev <= hi -> lo <= x <= hi ->
  lo <= (1 - alpha) * prev + alpha * x <= hi.
Proof.
  intros Ha0 Ha1 [Hp1 Hp2] [Hx1 Hx2].
  assert (A1 : 0 <= (1 - alpha) * (prev - lo))
    by (apply Qmult_le_0_compat; lra).
  assert (A2 : 0 <= alpha * (x - lo)) by (apply Qmult_le_0_compat; lra).
  assert (A3 : 0 <= (1 - alpha) * (hi - prev))
    by (apply Qmult_le_0_compat; lra).
  assert (A4 : 0 <= alpha * (hi - x)) by (apply Qmult_le_0_compat; lra).
  split; lra.
Qed.

Lemma ewm_from_bounded (alpha lo hi : Q) (s : list Q) :
  0 < alpha -> alpha <= 1 ->
  forall prev,
    lo <= prev <= hi ->
    Forall (fun x => lo <= x <= hi) s ->
    length (ewm_from alpha prev s) = length s /\
    Forall (fun y => lo <= y <= hi) (ewm_from alpha prev s).
Proof.
  intros Ha0 Ha1. induction s as [|x s IH]; intros prev Hp Hs; simpl.
  - split; [reflexivity | constructor].
  - inversion Hs as [|? ? Hx Hs']. subst.
    pose proof (ewm_step_bounded alpha prev x lo hi Ha0 Ha1 Hp Hx) as Hy.
    destruct (IH _ Hy Hs') as [Hl Hb].
    split; [rewrite Hl; reflexivity | constructor; assumption].
Qed.

(** For a span of at least 1 the EMA column has one value per close, starts
    at the first close, and never leaves the range of the closes. *)
Theorem calculate_ema_within_closes (close_prices : list Q) (period : nat)
        (lo hi : Q) :
  (1 <= period)%nat ->
  Forall (fun x => lo <= x <= hi) close_prices ->
  exists ema,
    calculate_ema close_prices period = Some ema /\
    length ema = length close_prices /\
    hd_error ema = hd_error close_prices /\
    Forall (fun y => lo <= y <= hi) ema.
Proof.
  intros Hp Hs. unfold calculate_ema.
  replace (period <? 1)%nat with false
    by (symmetry; apply Nat.ltb_ge; exact Hp).
  destruct (alpha_range period Hp) as [Ha0 Ha1].
  destruct close_prices as [|x s].
  - exists []. repeat split. constructor.
  - inversion Hs as [|? ? Hx Hs']. subst.
    destruct (ewm_from_bounded _ lo hi s Ha0 Ha1 x Hx Hs') as [Hl Hb].
    eexists. split; [reflexivity|]. simpl. rewrite Hl.
    repeat split; try reflexivity. constructor; assumption.
Qed.

Lemma ewm_from_alpha_one (alpha : Q) (s : list Q) :
  alpha == 1 -> forall prev, Forall2 Qeq (ewm_from alpha prev s) s.
Proof.
  intros Ha. induction s as [|x s IH]; intros prev; simpl; constructor.
  - rewrite Ha. ring.
  - apply IH.
Qed.

(** With a span of 1 the EMA is the close itself, bar by bar. *)
Theorem calculate_ema_span_one (close_prices : list Q) :
  exists ema,
    calculate_ema close_prices 1 = Some ema /\ Forall2 Qeq ema close_prices.
Proof.
  destruct close_prices as [|x s].
  - exists []. split; [reflexivity | constructor].
  - eexists. split; [reflexivity|]. constructor; [reflexivity|].
    apply ewm_from_alpha_one. reflexivity.
Qed.

End Ema.

(* ------------------------------------------------------------------------- *)
(** ** Range of the RSI *)

Section RsiRange.
Import Py IndicatorCalculator RsiVocabulary.
Open Scope Q_scope.

Lemma step_gain_nonneg (close : list Q) (j : nat) : 0 <= step_gain close j.
Proof.
  destruct j as [|k]; simpl; [lra|].
  destruct (Qltb 0 (nth (S k) close 0 - nth k close 0)) eqn:E; [|lra].
  apply Qltb_lt in E. lra.
Qed.

Lemma step_loss_nonneg (close : list Q) (j : nat) : 0 <= step_loss close j.
Proof.
  destruct j as [|k]; simpl; [lra|].
  destruct (Qltb (nth (S k) close 0 - nth k close 0) 0) eqn:E; [|lra].
  apply Qltb_lt in E. lra.
Qed.

(** Wherever the RSI is defined it is at least 0 and strictly below 100. *)
Theorem calculate_rsi_range (close : list Q) (period i : nat) (v : Q) :
  (0 < period)%nat ->
  nth_error (calculate_rsi close period) i = Some (Some v) ->
  0 <= v < 100.
Proof.
  intros Hp Hv.
  assert (Hi : (i < length close)%nat).
  { destruct (Nat.lt_ge_cases i (length close)) as [H|H]; [exact H|].
    assert (Hl : length (calculate_rsi close period) = length close).
    { unfold calculate_rsi. rewrite length_map, length_div.
      - rewrite length_rolling_mean. unfold where_.
        rewrite length_map. apply length_diff.
      - unfold replace_0_nan. rewrite length_map, !length_rolling_mean.
        unfold neg, where_. rewrite !length_map. reflexivity. }
    rewrite <- Hl in H. apply nth_error_None in H. congruence. }
  rewrite (calculate_rsi_at close period i Hp Hi) in Hv.
  unfold rsi_spec in Hv.
  destruct (Nat.ltb_spec (i + 1) period) as [Hw|Hw]; [discriminate|].
  cbv zeta in Hv.
  set (ag := trailing_mean (step_gain close) period i) in *.
  set (al := trailing_mean (step_loss close) period i) in *.
  destruct (Qeq_bool al 0) eqn:E; [discriminate|].
  injection Hv as <-.
  assert (Hag : 0 <= ag)
    by (apply trailing_mean_nonneg; auto using step_gain_nonneg).
  assert (Hal : 0 <= al)
    by (apply trailing_mean_nonneg; auto using step_loss_nonneg).
  assert (Hal' : 0 < al).
  { apply Qle_lteq in Hal. destruct Hal as [H|H]; [exact H|].
    symmetry in H. apply Qeq_bool_iff in H. congruence. }
  assert (Hrs : 0 <= ag / al) by (apply Qle_shift_div_l; lra).
  assert (H1 : 100 / (1 + ag / al) <= 100)
    by (apply Qle_shift_div_r; lra).
  assert (H2 : 0 < 100 / (1 + ag / al))
    by (apply Qlt_shift_div_l; lra).
  split; lra.
Qed.

Lemma fold_sum_zero (f : nat -> Q) (js : list nat) :
  (forall j, In j js -> f j == 0) ->
  fold_right Qplus 0 (map f js) == 0.
Proof.
  induction js as [|j js IH]; intros H; simpl; [reflexivity|].
  rewrite (H j (or_introl eq_refl)), IH; [reflexivity|].
  intros; apply H; right; assumption.
Qed.

(** On closes that never fall the RSI is NaN at every bar: there is no loss
    to divide by. *)
Theorem calculate_rsi_no_losses (close : list Q) (period i : nat) :
  (0 < period)%nat -> (i < length close)%nat ->
  (forall k, (S k < length close)%nat -> nth k close 0 <= nth (S k) close 0) ->
  nth_error (calculate_rsi close period) i = Some None.
Proof.
  intros Hp Hi Hup. rewrite calculate_rsi_at by assumption.
  unfold rsi_spec.
  destruct (Nat.ltb_spec (i + 1) period) as [Hw|Hw]; [reflexivity|].
  cbv zeta.
  assert (Hz : trailing_mean (step_loss close) period i == 0).
  { unfold trailing_mean.
    rewrite fold_sum_zero; [unfold Qdiv; ring|].
    intros j Hj. apply in_seq in Hj.
    destruct j as [|k]; simpl; [reflexivity|].
    destruct (Qltb (nth (S k) close 0 - nth k close 0) 0) eqn:E;
      [|reflexivity].
    apply Qltb_lt in E.
    assert (nth k close 0 <= nth (S k) close 0) by (apply Hup; lia).
    lra. }
  apply Qeq_bool_iff in Hz. rewrite Hz. reflexivity.
Qed.

End RsiRange.

(* ------------------------------------------------------------------------- *)
(** ** Spacing of pivots *)

Section PivotSpacing.
Import Py IndicatorCalculator PivotVocabulary.

Lemma strict_peaks_apart (s : list Q) (i j : Z) (L : nat) :
  strict_peak s i L -> strict_peak s j L -> i < j -> Z.of_nat L < j - i.
Proof.
  intros [_ Hi] [_ Hj] Hlt.
  destruct (Z_lt_ge_dec (Z.of_nat L) (j - i)) as [H|H]; [exact H|].
  destruct (Hi j) as [a [b [Ea [Eb Hab]]]]; [lia | lia |].
  destruct (Hj i) as [b' [a' [Eb' [Ea' Hba]]]]; [lia | lia |].
  rewrite Ea in Ea'. rewrite Eb in Eb'.
  injection Ea' as <-. injection Eb' as <-.
  exfalso. lra.
Qed.

(** Two distinct pivot highs of one series are more than [lookback] bars
    apart, and so are two distinct pivot lows. *)
Theorem pivots_more_than_lookback_apart (s : list Q) (i j : Z) (L : nat) :
  i <> j ->
  (find_pivot_high s i L = Some true ->
   find_pivot_high s j L = Some true -> Z.of_nat L < Z.abs (j - i)) /\
  (find_pivot_low s i L = Some true ->
   find_pivot_low s j L = Some true -> Z.of_nat L < Z.abs (j - i)).
Proof.
  intros Hne.
  assert (Hhigh : forall t,
             find_pivot_high t i L = Some true ->
             find_pivot_high t j L = Some true ->
             Z.of_nat L < Z.abs (j - i)).
  { intros t Hi Hj. apply find_pivot_high_true in Hi, Hj.
    destruct (Z_lt_ge_dec i j) as [H|H].
    - pose proof (strict_peaks_apart t i j L Hi Hj H). lia.
    - assert (H' : j < i) by lia.
      pose proof (strict_peaks_apart t j i L Hj Hi H'). lia. }
  split; [apply Hhigh|].
  rewrite !find_pivot_low_opp. apply Hhigh.
Qed.

(** With a half-window of 0 every bar of the series is both a pivot high and
    a pivot low. *)
Theorem every_bar_is_pivot_at_lookback_zero (s : list Q) (i : Z) :
  0 <= i < len s ->
  find_pivot_high s i 0 = Some true /\ find_pivot_low s i 0 = Some true.
Proof.
  intros Hi.
  assert (Hhigh : forall t, len t = len s ->
                            find_pivot_high t i 0 = Some true).
  { intros t Ht. apply find_pivot_high_true. split; [simpl; lia|].
    intros j Hj Hn. simpl in Hj. lia. }
  split; [apply Hhigh; reflexivity|].
  rewrite find_pivot_low_opp. apply Hhigh.
  unfold len. rewrite length_map. reflexivity.
Qed.

End PivotSpacing.

(* ------------------------------------------------------------------------- *)
(** ** Range of the confidence score *)

Section ConfidenceBand.
Import Py Config SignalDetector.
Open Scope Q_scope.

Ltac case_ifs :=
  cbv beta iota;
  repeat match goal with
         | |- context [if ?b then _ else _] => destruct b; cbv beta iota
         end.

Ltac decide_lt a b :=
  let E := fresh "E" in
  destruct (Qltb a b) eqn:E; [apply Qltb_lt in E | apply Qltb_ge in E].

(** With RSI and ATR defined and the ATR not zero, the five terms add up to
    at least 0.15 (the trend term alone) and at most 0.88: a distance above
    2.5 ATR excludes the pullback bonus. *)
Lemma calculate_confidence_band (df : frame) (index : Z) (b : bool)
      (r : row) (x a : Q) :
  iloc df index = Some r -> rsi r = Some x -> atr r = Some a -> ~ a == 0 ->
  15 # 100 <= calculate_confidence df index b <= 88 # 100.
Proof.
  intros Hr Hx Ha Hnz. unfold calculate_confidence. rewrite Hr, Hx, Ha.
  destruct (Qeq_bool a 0) eqn:E; [apply Qeq_bool_iff in E; contradiction|].
  cbv zeta.
  match goal with |- context [Py.min ?c 1] => set (score := c) end.
  assert (Hs : 15 # 100 <= score <= 88 # 100).
  { subst score.
    generalize (Qabs (close r - ema20 r) / a) ((ema20 r - ema50 r) / a).
    intros distance dma.
    decide_lt (25 # 10) distance; decide_lt (15 # 10) distance;
      decide_lt (3 # 10) distance; decide_lt distance 2;
      destruct b; cbn [andb orb negb]; case_ifs; lra. }
  unfold Py.min. decide_lt 1 score; lra.
Qed.

(** Whatever the row, the score stays at or below 0.88. *)
Lemma calculate_confidence_le (df : frame) (index : Z) (b : bool) :
  calculate_confidence df index b <= 88 # 100.
Proof.
  destruct (iloc df index) as [r|] eqn:Hr;
    [|unfold calculate_confidence; rewrite Hr; lra].
  destruct (rsi r) as [x|] eqn:Hx;
    [|unfold calculate_confidence; rewrite Hr, Hx; lra].
  destruct (atr r) as [a|] eqn:Ha;
    [|unfold calculate_confidence; rewrite Hr, Hx, Ha; lra].
  destruct (Qeq_bool a 0) eqn:E.
  - unfold calculate_confidence. rewrite Hr, Hx, Ha, E. lra.
  - apply (calculate_confidence_band df index b r x a Hr Hx Ha).
    intros H. apply Qeq_bool_iff in H. congruence.
Qed.

(** A positive score means the row has an RSI and a non-zero ATR. *)
Lemma positive_confidence_defined (df : frame) (index : Z) (b : bool) (r : row) :
  iloc df index = Some r ->
  0 < calculate_confidence df index b ->
  (exists x, rsi r = Some x) /\ (exists a, atr r = Some a /\ ~ a == 0).
Proof.
  intros Hr Hpos. unfold calculate_confidence in Hpos. rewrite Hr in Hpos.
  destruct (rsi r) as [x|]; [|lra].
  destruct (atr r) as [a|]; [|lra].
  destruct (Qeq_bool a 0) eqn:E; [lra|].
  split; [eauto|]. exists a. split; [reflexivity|].
  intros H. apply Qeq_bool_iff in H. congruence.
Qed.

(** With RSI and ATR defined and a non-zero ATR, [calculate_confidence] lies
    between 0.15 and 0.88, so the cap [min(confidence, 1.0)] never takes
    effect. *)
Theorem confidence_between_015_and_088 (df : frame) (index : Z) (b : bool)
        (r : row) (x a : Q) :
  iloc df index = Some r -> rsi r = Some x -> atr r = Some a -> ~ a == 0 ->
  15 # 100 <= calculate_confidence df index b <= 88 # 100.
Proof. apply calculate_confidence_band. Qed.

End ConfidenceBand.

(* ------------------------------------------------------------------------- *)
(** ** What an emitted signal guarantees *)

Section Signals.
Import Py Config SignalDetector Vocabulary.

(** A call either leaves through one of the early returns, or records the
    candidate and ends with the outcome of the loop. *)
Lemma detect_signal_cases cfg df self :
  detect_signal cfg df self = Some (None, self) \/
  exists ph pl r,
    100 <= len df /\
    cooling_down self (len df) = false /\
    Z.of_nat (PIVOT_LOOKBACK cfg) <= candidate cfg df /\
    IndicatorCalculator.find_pivot_high
      (map high df) (candidate cfg df) (PIVOT_LOOKBACK cfg) = Some ph /\
    IndicatorCalculator.find_pivot_low
      (map low df) (candidate cfg df) (PIVOT_LOOKBACK cfg) = Some pl /\
    ph || pl = true /\
    iloc df (candidate cfg df) = Some r /\
    detect_signal cfg df self
    = divergence_scan cfg df
        (store_pivot cfg self (candidate cfg df)
                     (make_pivot (candidate cfg df) ph r))
        (candidate cfg df) (make_pivot (candidate cfg df) ph r)
        (rev (removelast
                (recent_pivots
                   (store_pivot cfg self (candidate cfg df)
                                (make_pivot (candidate cfg df) ph r))))).
Proof.
  unfold detect_signal. fold (candidate cfg df).
  destruct (len df <? 100) eqn:G100; [left; reflexivity|].
  destruct (cooling_down self (len df)) eqn:Gc; [left; reflexivity|].
  destruct (candidate cfg df <? Z.of_nat (PIVOT_LOOKBACK cfg)) eqn:G;
    [left; reflexivity|].
  pose proof (find_pivot_high_total (map high df) (candidate cfg df)
                                    (PIVOT_LOOKBACK cfg)) as Th.
  pose proof (find_pivot_low_total (map low df) (candidate cfg df)
                                   (PIVOT_LOOKBACK cfg)) as Tl.
  destruct (IndicatorCalculator.find_pivot_high _ _ _) as [ph|];
    [|congruence].
  destruct (IndicatorCalculator.find_pivot_low _ _ _) as [pl|];
    [|congruence].
  destruct (negb ph && negb pl) eqn:Gp; [left; reflexivity|].
  destruct (candidate_row cfg df G) as [r Hr]. rewrite Hr.
  right. exists ph, pl, r.
  apply Z.ltb_ge in G100, G.
  repeat split; try assumption; try reflexivity.
  destruct ph, pl; simpl in *; congruence.
Qed.

Lemma removelast_snoc {A} (l : list A) (x : A) : removelast (l ++ [x]) = l.
Proof. apply removelast_last. Qed.

Lemma nan_lt_true (u v : option Q) :
  nan_lt u v = true -> exists a b, u = Some a /\ v = Some b /\ (a < b)%Q.
Proof.
  destruct u as [a|], v as [b|]; simpl; try discriminate.
  intros H. apply Qltb_lt in H. eauto.
Qed.

(** Every emitted signal is backed by the frame and the window: the candidate
    row is a confirmed pivot with a defined RSI, the matched pivot was in the
    window before the call, of the same type, between 8 and
    [MAX_LOOKBACK_BARS] bars back, price and RSI diverge in the direction of
    the signal, the RSI is beyond the 40/60 threshold and the confidence lies
    between the configured minimum and 1. *)
Theorem emitted_signal_sound cfg df self sig self' :
  detect_signal cfg df self = Some (Some sig, self') ->
  exists r prev x y b,
    iloc df (candidate cfg df) = Some r /\
    rsi r = Some x /\
    In prev (recent_pivots self) /\
    p_rsi prev = Some y /\
    s_time sig = time r /\
    s_rsi sig = Some x /\
    s_atr sig = atr r /\
    s_confidence sig = calculate_confidence df (candidate cfg df) b /\
    s_bars_between sig = candidate cfg df - p_index prev /\
    8 <= s_bars_between sig <= Z.of_nat (MAX_LOOKBACK_BARS cfg) /\
    (MIN_CONFIDENCE cfg <= s_confidence sig <= 1)%Q /\
    last_signal_time self' = Some (candidate cfg df) /\
    ((b = true /\ s_type sig = BULLISH /\
      IndicatorCalculator.find_pivot_low
        (map low df) (candidate cfg df) (PIVOT_LOOKBACK cfg) = Some true /\
      p_type prev = PivotLow /\ s_price sig = low r /\
      (low r < p_price prev)%Q /\ (y < x)%Q /\ (x < 40)%Q)
     \/
     (b = false /\ s_type sig = BEARISH /\
      IndicatorCalculator.find_pivot_high
        (map high df) (candidate cfg df) (PIVOT_LOOKBACK cfg) = Some true /\
      p_type prev = PivotHigh /\ s_price sig = high r /\
      (p_price prev < high r)%Q /\ (x < y)%Q /\ (60 < x)%Q)).
Proof.
  intros H.
  destruct (detect_signal_cases cfg df self)
    as [E | [ph [pl [r [H100 [Hc [HL [Hh [Hl [Hp [Hr E]]]]]]]]]]];
    [congruence|].
  rewrite E in H.
  rewrite (divergence_scan_first_passing _ _ _ _ _ _ r Hr) in H.
  set (k := candidate cfg df) in *.
  set (pivot := make_pivot k ph r) in *.
  destruct (find _ _) as [prev|] eqn:F; [|discriminate].
  destruct (Qle_bool (MIN_CONFIDENCE cfg)
                     (calculate_confidence df k (direction pivot))) eqn:C;
    [|discriminate].
  injection H as <- <-.
  apply find_some in F. destruct F as [Hin Hq].
  apply in_rev in Hin.
  rewrite (store_pivot_last cfg self k pivot eq_refl), removelast_snoc in Hin.
  apply filter_In in Hin. destruct Hin as [Hin Hage].
  apply Z.leb_le in Hage.
  apply andb_true_iff in Hq. destruct Hq as [Hq Hpat].
  unfold qualifies in Hq. apply andb_true_iff in Hq.
  destruct Hq as [Hty Hgap]. apply negb_true_iff, Z.ltb_ge in Hgap.
  apply Qle_bool_iff in C.
  pose proof (calculate_confidence_bounds df k (direction pivot)) as Hb.
  unfold pattern_test, bullish_divergence, bearish_divergence in Hpat.
  destruct ph.
  - (* the candidate is a pivot high *)
    simpl in Hpat, Hty.
    apply andb_true_iff in Hpat. destruct Hpat as [Hpat H60].
    apply andb_true_iff in Hpat. destruct Hpat as [Hpr Hrsi].
    apply Qltb_lt in Hpr.
    apply nan_lt_true in Hrsi. destruct Hrsi as [x [y [Ex [Ey Hxy]]]].
    simpl in Ex. rewrite Ex in H60. apply Qltb_lt in H60.
    exists r, prev, x, y, false.
    repeat split; try assumption; try reflexivity; try tauto.
    right. repeat split; try assumption; try reflexivity.
    destruct (p_type prev); [reflexivity | discriminate].
  - (* the candidate is a pivot low only *)
    simpl in Hp. subst pl.
    simpl in Hpat, Hty. rewrite orb_false_r in Hpat.
    apply andb_true_iff in Hpat. destruct Hpat as [Hpat H40].
    apply andb_true_iff in Hpat. destruct Hpat as [Hpr Hrsi].
    apply Qltb_lt in Hpr.
    apply nan_lt_true in Hrsi. destruct Hrsi as [y [x [Ey [Ex Hxy]]]].
    simpl in Ex. rewrite Ex in H40. apply Qltb_lt in H40.
    exists r, prev, x, y, true.
    repeat split; try assumption; try reflexivity; try tauto.
    left. repeat split; try assumption; try reflexivity.
    destruct (p_type prev); [discriminate | reflexivity].
Qed.

End Signals.

Section SignalConsequences.
Import Py Config SignalDetector Vocabulary.

(** The shape of the outcome once the candidate has been recorded. *)
Lemma recorded_outcome cfg df self ph r out self' :
  iloc df (candidate cfg df) = Some r ->
  divergence_scan cfg df
    (store_pivot cfg self (candidate cfg df)
                 (make_pivot (candidate cfg df) ph r))
    (candidate cfg df) (make_pivot (candidate cfg df) ph r)
    (rev (removelast
            (recent_pivots
               (store_pivot cfg self (candidate cfg df)
                            (make_pivot (candidate cfg df) ph r)))))
  = Some (out, self') ->
  match out with
  | Some sig =>
      exists b,
        s_confidence sig = calculate_confidence df (candidate cfg df) b /\
        (MIN_CONFIDENCE cfg <= s_confidence sig)%Q /\
        s_atr sig = atr r
  | None =>
      self' = store_pivot cfg self (candidate cfg df)
                          (make_pivot (candidate cfg df) ph r)
  end.
Proof.
  intros Hr H.
  rewrite (divergence_scan_first_passing _ _ _ _ _ _ r Hr) in H.
  destruct (find _ _) as [prev|].
  - destruct (Qle_bool _ _) eqn:C; injection H as <- <-; [|reflexivity].
    apply Qle_bool_iff in C. eexists. repeat split. exact C.
  - injection H as <- <-. reflexivity.
Qed.

(** With a positive minimum confidence, a signal is only ever emitted on a
    bar whose ATR is defined and not zero. *)
Theorem emitted_signal_has_atr cfg df self sig self' :
  (0 < MIN_CONFIDENCE cfg)%Q ->
  detect_signal cfg df self = Some (Some sig, self') ->
  exists a, s_atr sig = Some a /\ ~ (a == 0)%Q.
Proof.
  intros Hmin H.
  destruct (detect_signal_cases cfg df self)
    as [E | [ph [pl [r [_ [_ [_ [_ [_ [_ [Hr E]]]]]]]]]]]; [congruence|].
  rewrite E in H.
  destruct (recorded_outcome _ _ _ _ _ _ _ Hr H) as [b [Ec [Hc Ha]]].
  rewrite Ha.
  apply (positive_confidence_defined df (candidate cfg df) b r Hr).
  rewrite <- Ec. apply (Qlt_le_trans _ _ _ Hmin Hc).
Qed.

(** A minimum confidence above 0.88 silences the detector: no frame and no
    state make it emit. *)
Theorem no_signal_above_088 cfg df self out self' :
  (88 # 100 < MIN_CONFIDENCE cfg)%Q ->
  detect_signal cfg df self = Some (out, self') ->
  out = None.
Proof.
  intros Hmin H. destruct out as [sig|]; [|reflexivity]. exfalso.
  destruct (detect_signal_cases cfg df self)
    as [E | [ph [pl [r [_ [_ [_ [_ [_ [_ [Hr E]]]]]]]]]]]; [congruence|].
  rewrite E in H.
  destruct (recorded_outcome _ _ _ _ _ _ _ Hr H) as [b [Ec [Hc _]]].
  pose proof (calculate_confidence_le df (candidate cfg df) b) as Hle.
  rewrite <- Ec in Hle.
  apply (Qlt_irrefl (88 # 100)).
  apply (Qlt_le_trans _ _ _ Hmin). apply (Qle_trans _ _ _ Hc Hle).
Qed.

(** No exception leaves [detect_signal]: every position it reads lies inside
    the frame. *)
Theorem detect_signal_never_raises cfg df self :
  exists out self', detect_signal cfg df self = Some (out, self').
Proof.
  destruct (detect_signal cfg df self) as [[out self']|] eqn:E; [eauto|].
  exfalso. exact (detect_signal_total cfg df self E).
Qed.

Lemma filter_idempotent {A} (f : A -> bool) (l : list A) :
  filter f (filter f l) = filter f l.
Proof.
  induction l as [|a l IH]; simpl; [reflexivity|].
  destruct (f a) eqn:E; simpl; [rewrite E, IH|]; auto.
Qed.

(** Polling again with the same frame after a silent call is silent again,
    but a candidate pivot that the first call recorded is recorded a second
    time: the window ends with two copies of it. *)
Theorem repoll_duplicates_pivot cfg df self self1 :
  detect_signal cfg df self = Some (None, self1) ->
  exists self2,
    detect_signal cfg df self1 = Some (None, self2) /\
    last_signal_time self2 = last_signal_time self /\
    ((self1 = self /\ self2 = self) \/
     exists older pivot,
       p_index pivot = candidate cfg df /\
       recent_pivots self1 = older ++ [pivot] /\
       recent_pivots self2 = older ++ [pivot; pivot]).
Proof.
  intros H.
  destruct (detect_signal_cases cfg df self)
    as [E | [ph [pl [r [H100 [Hc [HL [Hh [Hl [Hp [Hr E]]]]]]]]]]].
  - rewrite E in H. injection H as <-.
    exists self. split; [exact E|]. split; [reflexivity|]. left. auto.
  - rewrite E in H.
    pose proof (recorded_outcome _ _ _ _ _ _ _ Hr H) as Hs. simpl in Hs.
    set (k := candidate cfg df) in *.
    set (pivot := make_pivot k ph r) in *.
    assert (Hw : recent_pivots self1
                 = filter (fun p => k - p_index p
                                    <=? Z.of_nat (MAX_LOOKBACK_BARS cfg))
                          (recent_pivots self) ++ [pivot])
      by (rewrite Hs; apply store_pivot_last; reflexivity).
    set (kept := filter _ (recent_pivots self)) in Hw.
    assert (Hw2 : recent_pivots (store_pivot cfg self1 k pivot)
                  = kept ++ [pivot; pivot]).
    { assert (Hkeep : (k - p_index pivot
                       <=? Z.of_nat (MAX_LOOKBACK_BARS cfg)) = true)
        by (apply Z.leb_le; simpl; lia).
      rewrite (store_pivot_last cfg self1 k pivot eq_refl), Hw.
      rewrite filter_app. unfold kept at 1. rewrite filter_idempotent.
      fold kept. cbn [filter]. rewrite Hkeep.
      rewrite <- app_assoc. reflexivity. }
    (* the outcome of the first loop *)
    rewrite (divergence_scan_first_passing _ _ _ _ _ _ r Hr) in H.
    rewrite (store_pivot_last cfg self k pivot eq_refl), removelast_snoc in H.
    fold kept in H.
    (* the second call *)
    assert (Hc1 : cooling_down self1 (len df) = false)
      by (rewrite Hs; exact Hc).
    exists (store_pivot cfg self1 k pivot).
    split; [|split].
    + unfold detect_signal. fold (candidate cfg df). fold k.
      replace (len df <? 100) with false by (symmetry; apply Z.ltb_ge; lia).
      rewrite Hc1.
      replace (k <? Z.of_nat (PIVOT_LOOKBACK cfg)) with false
        by (symmetry; apply Z.ltb_ge; lia).
      rewrite Hh, Hl, Hr.
      replace (negb ph && negb pl) with false
        by (destruct ph, pl; simpl in *; congruence).
      fold pivot.
      rewrite (divergence_scan_first_passing _ _ _ _ _ _ r Hr).
      rewrite Hw2.
      replace (kept ++ [pivot; pivot]) with ((kept ++ [pivot]) ++ [pivot])
        by (rewrite <- app_assoc; reflexivity).
      rewrite removelast_snoc, rev_app_distr. simpl rev. simpl app.
      simpl find. unfold qualifies at 1.
      replace (p_index pivot - p_index pivot <? 8) with true
        by (symmetry; apply Z.ltb_lt; lia).
      rewrite andb_false_r. simpl andb.
      destruct (find _ (rev kept)) as [prev|]; [|reflexivity].
      destruct (Qle_bool _ _); [discriminate | reflexivity].
    + rewrite Hs. reflexivity.
    + right. exists kept, pivot. repeat split; assumption.
Qed.

End SignalConsequences.

(* ------------------------------------------------------------------------- *)
(** ** Invariants of the candle aggregator *)

Section AggregatorInvariants.
Import Py LiveDataCollector CollectorVocabulary.

Lemma feed_snoc (self : collector) (bars : list bar) (b : bar) :
  feed self (bars ++ [b]) = on_bar (feed self bars) b.
Proof. unfold feed. rewrite fold_left_app. reflexivity. Qed.

Lemma on_bar_consistent (self : collector) (b : bar) :
  consistent self -> consistent (on_bar self b).
Proof.
  unfold consistent. intros H.
  destruct (current_candle self) as [w|] eqn:Hw.
  - destruct H as [Hs Hn].
    destruct (Z_lt_ge_dec (timestamp b - w_timestamp w) (interval self))
      as [Ht|Ht];
      [destruct (Z_lt_ge_dec (bars_in_candle w + 1) 5) as [Hb|Hb]|].
    + destruct (on_bar_merge self w _ b Hw Hs Ht Hb) as [-> [-> _]].
      simpl. split; [reflexivity | lia].
    + destruct (on_bar_close_state self w _ b Hw Hs) as [-> [-> _]];
        [right; lia|]. simpl. split; [reflexivity | lia].
    + destruct (on_bar_close_state self w _ b Hw Hs) as [-> [-> _]];
        [left; lia|]. simpl. split; [reflexivity | lia].
  - destruct (on_bar_seed self b Hw) as [-> [-> _]].
    simpl. split; [reflexivity | lia].
Qed.

(** After a bar a working candle is always open. *)
Lemma on_bar_opens_candle (self : collector) (b : bar) :
  exists w, current_candle (on_bar self b) = Some w.
Proof.
  unfold on_bar, process_minute_bar. simpl.
  destruct (current_candle self) as [w|]; [|eexists; reflexivity].
  destruct (candle_start self) as [start|]; [|eexists; reflexivity].
  destruct ((interval self <=? timestamp b - start)
            || (5 <=? bars_in_candle w + 1)); eexists; reflexivity.
Qed.

(** However many bars arrive, an open working candle keeps the period start
    at the timestamp of the bar that opened it and never holds more than
    four bars (the fifth closes it); and from the first bar on a working
    candle is always open, so that the period start is then always that of
    the working candle. *)
Theorem feed_keeps_consistent (self : collector) (bars : list bar) :
  consistent self ->
  consistent (feed self bars) /\
  (bars <> [] ->
   exists w,
     current_candle (feed self bars) = Some w /\
     candle_start (feed self bars) = Some (w_timestamp w) /\
     1 <= bars_in_candle w <= 4).
Proof.
  intros H.
  assert (Hc : consistent (feed self bars)).
  { revert self H. induction bars as [|b bars IH]; intros self H; [exact H|].
    apply (IH (on_bar self b)). apply on_bar_consistent. exact H. }
  split; [exact Hc|]. intros Hne.
  destruct (exists_last Hne) as [front [b ->]].
  rewrite feed_snoc in *.
  destruct (on_bar_opens_candle (feed self front) b) as [w Hw].
  exists w. unfold consistent in Hc. rewrite Hw in Hc.
  destruct Hc as [Hs Hn]. auto.
Qed.

Lemma on_bar_appends (self : collector) (b : bar) :
  candles (on_bar self b) = candles self
  \/ exists c, candles (on_bar self b) = candles self ++ [c].
Proof.
  unfold on_bar, process_minute_bar. simpl.
  destruct (current_candle self) as [w|]; [|left; reflexivity].
  destruct (candle_start self) as [start|]; [|left; reflexivity].
  destruct ((interval self <=? timestamp b - start)
            || (5 <=? bars_in_candle w + 1));
    [right; eexists; reflexivity | left; reflexivity].
Qed.

(** Completed candles are only ever appended: whatever the state and the
    bars, the candles already there stay as they are, in place, and at most
    one candle is added per bar. *)
Theorem candles_append_only (self : collector) (bars : list bar) :
  exists more,
    candles (feed self bars) = candles self ++ more /\
    (length more <= length bars)%nat.
Proof.
  revert self. induction bars as [|b bars IH]; intros self.
  - exists []. rewrite app_nil_r. split; [reflexivity | apply Nat.le_refl].
  - destruct (IH (on_bar self b)) as [more [E Hl]].
    change (feed self (b :: bars)) with (feed (on_bar self b) bars).
    destruct (on_bar_appends self b) as [Hc | [c Hc]]; rewrite Hc in E.
    + exists more. split; [exact E | simpl; lia].
    + exists (c :: more). rewrite <- app_assoc in E.
      split; [exact E | simpl; lia].
Qed.

End AggregatorInvariants.

Section AggregatorShape.
Import Py LiveDataCollector CollectorVocabulary.

Lemma max_bounds (a b : Q) : (a <= Py.max a b /\ b <= Py.max a b)%Q.
Proof.
  unfold Py.max. destruct (Qltb a b) eqn:E;
    [apply Qltb_lt in E | apply Qltb_ge in E]; split; lra.
Qed.

Lemma min_bounds (a b : Q) : (Py.min a b <= a /\ Py.min a b <= b)%Q.
Proof.
  unfold Py.min. destruct (Qltb b a) eqn:E;
    [apply Qltb_lt in E | apply Qltb_ge in E]; split; lra.
Qed.

Lemma merge_ok (w : working) (b : bar) :
  working_ok w -> bar_ok b -> working_ok (merge w b).
Proof.
  unfold working_ok, bar_ok, merge. simpl. intros [Ho Hc] [Hbo Hbc].
  pose proof (max_bounds (w_high w) (high b)).
  pose proof (min_bounds (w_low w) (low b)).
  repeat split; lra.
Qed.

Lemma seed_ok (b : bar) : bar_ok b -> working_ok (seed b).
Proof. unfold working_ok, bar_ok, seed. simpl. tauto. Qed.

Lemma on_bar_ok (self : collector) (b : bar) :
  bar_ok b -> all_ok self -> all_ok (on_bar self b).
Proof.
  intros Hb [Hcs Hw]. unfold all_ok, on_bar, process_minute_bar. simpl.
  destruct (current_candle self) as [w|].
  - pose proof (merge_ok w b Hw Hb) as Hm.
    destruct (candle_start self) as [start|]; [|simpl; auto].
    destruct ((interval self <=? timestamp b - start)
              || (5 <=? bars_in_candle w + 1)); simpl.
    + split; [|apply seed_ok; exact Hb].
      apply Forall_app. split; [exact Hcs|].
      constructor; [exact Hm | constructor].
    + auto.
  - simpl. split; [exact Hcs | apply seed_ok; exact Hb].
Qed.

(** Bars whose low and high enclose their open and close give candles with
    the same property, the open one included. *)
Theorem candles_enclose_open_and_close (self : collector) (bars : list bar) :
  Forall bar_ok bars ->
  Forall candle_ok (candles self) ->
  match current_candle self with
  | None => True
  | Some w => working_ok w
  end ->
  Forall candle_ok (candles (feed self bars)) /\
  match current_candle (feed self bars) with
  | None => True
  | Some w => working_ok w
  end.
Proof.
  intros Hb Hc Hw. assert (H : all_ok self) by (split; assumption).
  clear Hc Hw. revert self H.
  induction Hb as [|b bars Hb Hbs IH]; intros self H; [exact H|].
  apply (IH (on_bar self b)). apply on_bar_ok; assumption.
Qed.

(** The state after [n >= 1] evenly spaced bars that never reach the
    interval within four steps: [n - 1 = 4 q + m] with [m < 4] gives [q]
    completed candles and a working candle of [m + 1] bars that started with
    bar [4 q]. *)
Lemma cadence_state (t0 step : Z) (self : collector) :
  current_candle self = None ->
  0 <= step -> 4 * step < interval self ->
  forall bars, bars <> [] -> evenly_spaced t0 step bars ->
  exists (q m : nat) (w : working),
    (length bars - 1 = 4 * q + m)%nat /\ (m < 4)%nat /\
    current_candle (feed self bars) = Some w /\
    bars_in_candle w = Z.of_nat m + 1 /\
    candle_start (feed self bars) = Some (t0 + step * Z.of_nat (4 * q)) /\
    interval (feed self bars) = interval self /\
    length (candles (feed self bars)) = (length (candles self) + q)%nat.
Proof.
  intros Hn Hstep Hiv bars.
  induction bars as [|b bars IH] using rev_ind; intros Hne Hsp;
    [congruence|].
  assert (Hb : timestamp b = t0 + step * Z.of_nat (length bars)).
  { apply Hsp. rewrite nth_error_app2 by apply Nat.le_refl.
    rewrite Nat.sub_diag. reflexivity. }
  rewrite feed_snoc, length_app. simpl length.
  destruct bars as [|b0 bars'].
  - (* the first bar *)
    simpl feed. destruct (on_bar_seed self b Hn) as [Hw [Hs [Hc Hi]]].
    exists 0%nat, 0%nat, (seed b).
    rewrite Hw, Hs, Hc, Hi, Hb. simpl.
    repeat split; try reflexivity; try lia.
  - set (bars := b0 :: bars') in *.
    destruct IH as [q [m [w [Hlen [Hm [Hw [Hcnt [Hs [Hi Hc]]]]]]]]];
      [discriminate | |].
    { intros i x Hx. apply Hsp.
      rewrite nth_error_app1; [exact Hx|].
      apply nth_error_Some. congruence. }
    assert (Hl : (length bars = 4 * q + m + 1)%nat)
      by (unfold bars in *; simpl length in *; lia).
    assert (Hd : timestamp b - (t0 + step * Z.of_nat (4 * q))
                 = step * (Z.of_nat m + 1))
      by (rewrite Hb, Hl; lia).
    assert (Hlt : step * (Z.of_nat m + 1) < interval self) by nia.
    destruct (Nat.eq_dec m 3) as [Hm3|Hm3].
    + (* the fifth bar of the working candle closes it *)
      exists (S q), 0%nat, (seed b).
      destruct (on_bar_close_state (feed self bars) w _ b Hw Hs)
        as [Hw' [Hs' Hi']]; [right; lia|].
      rewrite Hw', Hs', Hi', Hi.
      rewrite (on_bar_close (feed self bars) w _ b Hw Hs) by (right; lia).
      rewrite length_app, Hc, Hb, Hl. simpl length.
      repeat split; try reflexivity; try lia. f_equal. lia.
    + exists q, (S m), (merge w b).
      destruct (on_bar_merge (feed self bars) w _ b Hw Hs)
        as [Hw' [Hs' [Hc' Hi']]]; [rewrite Hi, Hd; exact Hlt | lia |].
      rewrite Hw', Hs', Hc', Hi', Hi, Hc. simpl bars_in_candle.
      repeat split; try reflexivity; try lia.
Qed.

(** On a regular feed (bars [step] seconds apart with four steps still
    inside the interval, as one-minute bars are for the five-minute
    interval) [n >= 1] bars complete [(n - 1) / 4] candles: the first after
    five bars and one more every four bars, because the bar that closes a
    candle is also the first bar of the next. *)
Theorem regular_feed_candle_count (t0 step : Z) (self : collector)
        (bars : list bar) :
  current_candle self = None ->
  0 <= step -> 4 * step < interval self ->
  bars <> [] -> evenly_spaced t0 step bars ->
  length (candles (feed self bars))
  = (length (candles self) + (length bars - 1) / 4)%nat.
Proof.
  intros Hn Hstep Hiv Hne Hsp.
  destruct (cadence_state t0 step self Hn Hstep Hiv bars Hne Hsp)
    as [q [m [w [Hlen [Hm [_ [_ [_ [_ Hc]]]]]]]]].
  rewrite Hc. f_equal.
  apply (Nat.div_unique _ 4 q m); assumption.
Qed.

End AggregatorShape.

(* ------------------------------------------------------------------------- *)
(** ** Shape of an order plan *)

Section PlanShape.
Import Py Config SignalDetector LiveTrader.
Open Scope Q_scope.

(** The fields of a plan, read off the call that made it. *)
Lemma plan_fields cfg q sig a e plan :
  s_atr sig = Some a ->
  calculate_order_details cfg q sig e = Some plan ->
  let bullish := is_BULLISH (s_type sig) in
  let d := a * STOP_MULTIPLIER cfg in
  entry plan = e /\
  stop plan = (if bullish then e - d else e + d) /\
  target_1 plan = (if bullish then e + d * TARGET_1_RR cfg
                   else e - d * TARGET_1_RR cfg) /\
  target_2 plan = (if bullish then e + d * TARGET_2_RR cfg
                   else e - d * TARGET_2_RR cfg) /\
  target_3 plan = (if bullish then e + d * TARGET_3_RR cfg
                   else e - d * TARGET_3_RR cfg) /\
  side plan = (if bullish then BUY else SELL) /\
  is_bullish plan = bullish /\
  stop_distance plan = Qabs (e - stop plan) /\
  qty plan = round6 (q * RISK_PER_TRADE cfg / stop_distance plan / e) /\
  risk_dollars plan = qty plan * stop_distance plan /\
  potential_profit_t1 plan = qty plan * Qabs (target_1 plan - e) /\
  potential_profit_t2 plan = qty plan * Qabs (target_2 plan - e) /\
  potential_profit_t3 plan = qty plan * Qabs (target_3 plan - e) /\
  0 < stop_distance plan /\ 0 < qty plan.
Proof.
  intros Ha H bullish d. unfold calculate_order_details in H.
  rewrite Ha in H. fold bullish in H. fold d in H.
  set (stop := if bullish then e - d else e + d) in *.
  destruct (Qltb 0 (Qabs (e - stop))) eqn:Gd.
  - destruct (Qle_bool _ 0) eqn:Gq; [discriminate|].
    injection H as <-. simpl.
    apply Qltb_lt in Gd. apply Qle_bool_false in Gq.
    repeat split; auto.
  - simpl in H. discriminate.
Qed.

Lemma target_gap (bullish : bool) (e d rr : Q) :
  Qabs ((if bullish then e + d * rr else e - d * rr) - e)
  == Qabs d * Qabs rr.
Proof.
  rewrite <- Qabs_Qmult. destruct bullish.
  - assert (E : e + d * rr - e == d * rr) by lra. rewrite E. reflexivity.
  - assert (E : e - d * rr - e == - (d * rr)) by lra.
    rewrite E. apply Qabs_opp.
Qed.

(** For a positive ATR and stop multiplier and increasing positive
    R-multiples, a long plan has stop < entry < target 1 < target 2 <
    target 3 and buys; a short plan has the mirror order and sells. *)
Theorem plan_levels_ordered cfg q sig a e plan :
  s_atr sig = Some a ->
  0 < a -> 0 < STOP_MULTIPLIER cfg ->
  0 < TARGET_1_RR cfg -> TARGET_1_RR cfg < TARGET_2_RR cfg ->
  TARGET_2_RR cfg < TARGET_3_RR cfg ->
  calculate_order_details cfg q sig e = Some plan ->
  (s_type sig = BULLISH /\ side plan = BUY /\
   stop plan < entry plan /\ entry plan < target_1 plan /\
   target_1 plan < target_2 plan /\ target_2 plan < target_3 plan)
  \/
  (s_type sig = BEARISH /\ side plan = SELL /\
   target_3 plan < target_2 plan /\ target_2 plan < target_1 plan /\
   target_1 plan < entry plan /\ entry plan < stop plan).
Proof.
  intros Ha Hpos Hm H1 H2 H3 H.
  destruct (plan_fields cfg q sig a e plan Ha H)
    as [-> [-> [-> [-> [-> [-> _]]]]]].
  set (d := a * STOP_MULTIPLIER cfg).
  assert (Hd : 0 < d) by (apply Qmult_lt_0_compat; assumption).
  assert (D1 : 0 < d * TARGET_1_RR cfg)
    by (apply Qmult_lt_0_compat; assumption).
  assert (D2 : 0 < d * (TARGET_2_RR cfg - TARGET_1_RR cfg))
    by (apply Qmult_lt_0_compat; lra).
  assert (D3 : 0 < d * (TARGET_3_RR cfg - TARGET_2_RR cfg))
    by (apply Qmult_lt_0_compat; lra).
  destruct (s_type sig); simpl; [left | right];
    repeat split; try reflexivity; lra.
Qed.

(** The profit potential at each target is the plan's risk in dollars times
    the size of that target's R-multiple. *)
Theorem plan_profit_is_r_multiple cfg q sig a e plan :
  s_atr sig = Some a ->
  calculate_order_details cfg q sig e = Some plan ->
  risk_dollars plan == qty plan * Qabs (a * STOP_MULTIPLIER cfg) /\
  potential_profit_t1 plan == risk_dollars plan * Qabs (TARGET_1_RR cfg) /\
  potential_profit_t2 plan == risk_dollars plan * Qabs (TARGET_2_RR cfg) /\
  potential_profit_t3 plan == risk_dollars plan * Qabs (TARGET_3_RR cfg).
Proof.
  intros Ha H.
  destruct (plan_fields cfg q sig a e plan Ha H)
    as [_ [Hs [H1 [H2 [H3 [_ [_ [Hd [_ [Hr [P1 [P2 [P3 _]]]]]]]]]]]]].
  assert (Ed : stop_distance plan == Qabs (a * STOP_MULTIPLIER cfg))
    by (rewrite Hd, Hs; apply stop_distance_abs).
  rewrite P1, P2, P3, H1, H2, H3, !target_gap, Hr, Ed.
  repeat split; ring.
Qed.

End PlanShape.

(* ------------------------------------------------------------------------- *)
(** ** Rounding of the quantity *)

Section QuantityRounding.
Import Py Config SignalDetector LiveTrader RoundingVocabulary.
Open Scope Q_scope.


(** The risk in dollars that a plan reports is the risk budget
    [equity * risk] divided by the entry price, up to the rounding of the
    quantity: it differs from it by at most 0.0000005 stop distances. *)
Theorem plan_risk_is_budget_over_entry cfg q sig a e plan :
  s_atr sig = Some a -> 0 < e ->
  calculate_order_details cfg q sig e = Some plan ->
  Qabs (risk_dollars plan - q * RISK_PER_TRADE cfg / e)
  <= (5 # 10000000) * stop_distance plan.
Proof.
  intros Ha He H.
  destruct (plan_fields cfg q sig a e plan Ha H)
    as [_ [_ [_ [_ [_ [_ [_ [_ [Hq [Hr [_ [_ [_ [Hd _]]]]]]]]]]]]]].
  set (sd := stop_distance plan) in *.
  set (raw := q * RISK_PER_TRADE cfg / sd / e) in *.
  pose proof (round6_error raw) as [E1 E2].
  assert (Eb : q * RISK_PER_TRADE cfg / e == raw * sd).
  { unfold raw. field. split; lra. }
  rewrite Hr, Hq, Eb.
  apply Qabs_Qle_condition.
  assert (A1 : 0 <= (round6 raw - raw + (5 # 10000000)) * sd)
    by (apply Qmult_le_0_compat; lra).
  assert (A2 : 0 <= ((5 # 10000000) - (round6 raw - raw)) * sd)
    by (apply Qmult_le_0_compat; lra).
  split; lra.
Qed.

End QuantityRounding.

(* ------------------------------------------------------------------------- *)
(** ** Orders *)

Section Orders.
Import Py Config SignalDetector LiveDataCollector LiveTrader TraderVocabulary.

Lemma execute_all_open self p calls :
  open_position self = Some p ->
  execute_all self calls = (self, repeat None (length calls)).
Proof.
  intros Hp. induction calls as [|[response od] calls IH]; [reflexivity|].
  simpl. unfold execute_trade. rewrite Hp. rewrite IH. reflexivity.
Qed.

Lemma execute_all_app self calls1 calls2 :
  execute_all self (calls1 ++ calls2)
  = let (self1, outs1) := execute_all self calls1 in
    let (self2, outs2) := execute_all self1 calls2 in
    (self2, outs1 ++ outs2).
Proof.
  revert self. induction calls1 as [|[response od] calls1 IH]; intros self.
  - simpl. destruct (execute_all self calls2). reflexivity.
  - simpl. destruct (execute_trade self response od) as [self1 out].
    rewrite IH. destruct (execute_all self1 calls1) as [s1 o1].
    destruct (execute_all s1 calls2) as [s2 o2]. reflexivity.
Qed.

(** At most one order is ever accepted: once the brokerage has accepted an
    order, its position is recorded, every later call submits nothing, and
    the recorded position is never replaced or cleared. *)
Theorem one_order_per_run self calls1 order_id od calls2 self1 outs1 :
  execute_all self calls1 = (self1, outs1) ->
  open_position self1 = None ->
  exists self2,
    execute_all self (calls1 ++ (Some order_id, od) :: calls2)
    = (self2,
       outs1
       ++ Some {| rq_qty := qty od;
                  rq_side := if is_bullish od then BUY else SELL |}
       :: repeat None (length calls2)) /\
    open_position self2 = Some (position_of order_id od).
Proof.
  intros H1 Hn. rewrite execute_all_app, H1.
  simpl. unfold execute_trade at 1. rewrite Hn.
  rewrite (execute_all_open _ (position_of order_id od)) by reflexivity.
  eexists. split; reflexivity.
Qed.

(** An order leaves [on_new_candle] only outside log-only mode, with no
    position open, a known equity, at least 100 candles and a positive
    quantity; the position is recorded exactly when the brokerage accepts
    the order, and the collector is not touched. *)
Theorem submitted_order_sound cfg st account_equity response self self' rq :
  on_new_candle cfg st account_equity response self = (self', Some rq) ->
  LOG_SIGNALS_ONLY st = false /\
  open_position self = None /\
  100 <= len (candles (data_collector self)) /\
  (exists q, account_equity = Some q) /\
  (0 < rq_qty rq)%Q /\
  data_collector self' = data_collector self /\
  match response with
  | Some order_id =>
      exists p, open_position self' = Some p /\
                pos_order_id p = order_id /\ pos_qty p = rq_qty rq /\
                (pos_side p = true <-> rq_side rq = BUY)
  | None => open_position self' = None
  end.
Proof.
  unfold on_new_candle, get_dataframe.
  destruct (candles (data_collector self)) as [|c0 cs0] eqn:Ecs;
    [discriminate|].
  destruct (len (c0 :: cs0) <? 100) eqn:G; [discriminate|].
  apply Z.ltb_ge in G.
  destruct (augment st (c0 :: cs0)) as [df|]; [|discriminate].
  destruct (iloc (map SignalDetector.close df) (-1)) as [price|];
    [|discriminate].
  destruct (signal_detector self) as [det|]; [|discriminate].
  destruct (detect_signal cfg df det) as [[[sig|] det']|]; try discriminate.
  destruct account_equity as [q|]; [|discriminate].
  destruct (calculate_order_details cfg q sig price) as [od|] eqn:Eod;
    [|discriminate].
  destruct (LOG_SIGNALS_ONLY st); [discriminate|].
  unfold execute_trade. simpl open_position.
  destruct (open_position self) eqn:Ep; [discriminate|].
  assert (Hq : (0 < qty od)%Q).
  { destruct (s_atr sig) as [a|] eqn:Ea.
    - apply (plan_fields cfg q sig a price od Ea Eod).
    - unfold calculate_order_details in Eod. rewrite Ea in Eod.
      discriminate. }
  destruct response as [order_id|]; intros H;
    inversion H; subst; clear H; simpl.
  - repeat split; eauto.
    eexists. repeat split; try reflexivity; simpl.
    + intros Hb. rewrite Hb. reflexivity.
    + destruct (is_bullish od); [reflexivity | discriminate].
  - repeat split; eauto.
Qed.

End Orders.

(* ------------------------------------------------------------------------- *)
(** ** From candles to a stop distance *)

Section Pipeline.
Import Py Config SignalDetector LiveTrader Vocabulary.

Lemma nth_error_combine_seq {A} (l : list A) : forall s i,
  nth_error (combine l (seq s (length l))) i
  = option_map (fun x => (x, (s + i)%nat)) (nth_error l i).
Proof.
  induction l as [|x l IH]; intros s i.
  - destruct i; reflexivity.
  - destruct i as [|i]; simpl.
    + rewrite Nat.add_0_r. reflexivity.
    + rewrite IH. rewrite Nat.add_succ_r. reflexivity.
Qed.

(** A row of the augmented frame carries the ATR column at its position. *)
Lemma augment_row_atr st cs df i r :
  augment st cs = Some df ->
  nth_error df i = Some r ->
  atr r = nth i (IndicatorCalculator.calculate_atr
                   LiveDataCollector.c_high LiveDataCollector.c_low
                   LiveDataCollector.c_close cs (ATR_PERIOD st)) None.
Proof.
  unfold augment. intros H Hr.
  destruct (IndicatorCalculator.calculate_ema _ (EMA_FAST st)); [|discriminate].
  destruct (IndicatorCalculator.calculate_ema _ (EMA_MID st)); [|discriminate].
  destruct (IndicatorCalculator.calculate_ema _ (EMA_SLOW st)); [|discriminate].
  injection H as <-.
  rewrite nth_error_map, nth_error_combine_seq in Hr.
  destruct (nth_error cs i) as [c|]; [|discriminate].
  simpl in Hr. injection Hr as <-. reflexivity.
Qed.

Lemma nth_default_none {A} (l : list (option A)) (i : nat) (a : A) :
  nth i l None = Some a -> nth_error l i = Some (Some a).
Proof.
  revert i. induction l as [|x l IH]; intros i H.
  - destruct i; discriminate.
  - destruct i as [|i]; simpl in *; [congruence | apply IH; exact H].
Qed.

(** In the trading loop the ATR that reaches the sizer is positive: a signal
    is only emitted on a bar with a non-zero ATR, and the ATR column is never
    negative.  With a non-negative stop multiplier the stop distance of a
    plan is therefore the product ATR x multiplier itself. *)
Theorem pipeline_stop_distance cfg st cs df det sig det' :
  augment st cs = Some df ->
  detect_signal cfg df det = Some (Some sig, det') ->
  (0 < MIN_CONFIDENCE cfg)%Q ->
  (0 < ATR_PERIOD st)%nat ->
  (ATR_PERIOD st <= 50)%nat
  \/ (exists c, nth_error cs 0 = Some c
                /\ (LiveDataCollector.c_low c <= LiveDataCollector.c_high c)%Q) ->
  exists a,
    s_atr sig = Some a /\ (0 < a)%Q /\
    ((0 <= STOP_MULTIPLIER cfg)%Q ->
     forall q e plan,
       calculate_order_details cfg q sig e = Some plan ->
       (stop_distance plan == a * STOP_MULTIPLIER cfg)%Q).
Proof.
  intros Hdf H Hmin Hp Hfirst.
  destruct (detect_signal_cases cfg df det)
    as [E | [ph [pl [r [H100 [_ [HL [_ [_ [_ [Hr E]]]]]]]]]]]; [congruence|].
  rewrite E in H.
  destruct (recorded_outcome _ _ _ _ _ _ _ Hr H) as [b [Ec [Hc Ha]]].
  destruct (positive_confidence_defined df (candidate cfg df) b r Hr)
    as [_ [a [Ea Hnz]]];
    [rewrite <- Ec; apply (Qlt_le_trans _ _ _ Hmin Hc)|].
  assert (Hk : 50 <= candidate cfg df) by (unfold candidate in *; lia).
  assert (Hrow : nth_error df (Z.to_nat (candidate cfg df)) = Some r).
  { rewrite <- Hr. symmetry. apply iloc_nonneg.
    unfold candidate in *. lia. }
  pose proof (augment_row_atr st cs df _ r Hdf Hrow) as Hcol.
  rewrite Ea in Hcol. symmetry in Hcol. apply nth_default_none in Hcol.
  assert (H0 : (0 <= a)%Q).
  { apply (atr_entry_nonneg
             LiveDataCollector.c_high LiveDataCollector.c_low
             LiveDataCollector.c_close cs (ATR_PERIOD st)
             (Z.to_nat (candidate cfg df)) a Hp);
      [|exact Hcol].
    destruct Hfirst as [H50|Hc0]; [left; lia | right; exact Hc0]. }
  assert (Hpos : (0 < a)%Q).
  { apply Qle_lteq in H0. destruct H0 as [H0|H0]; [exact H0|].
    exfalso. apply Hnz. symmetry. exact H0. }
  exists a. rewrite Ha. split; [exact Ea|]. split; [exact Hpos|].
  intros Hm q e plan Hplan.
  assert (Hsa : s_atr sig = Some a) by (rewrite Ha; exact Ea).
  destruct (plan_fields cfg q sig a e plan Hsa Hplan)
    as [_ [Hs [_ [_ [_ [_ [_ [Hd _]]]]]]]].
  rewrite Hd, Hs, stop_distance_abs.
  apply Qabs_pos. apply Qmult_le_0_compat; [apply Qlt_le_weak; exact Hpos|].
  exact Hm.
Qed.

End Pipeline.

(* ------------------------------------------------------------------------- *)
(** ** Instances *)

Section IndicatorInstances.
Import Py IndicatorCalculator LiveDataCollector RsiSamples MoreSamples
       LoopSamples Samples.
Open Scope Q_scope.

Lemma calculate_atr_trailing_mean_witness :
  (0 < 3)%nat /\
  nth_error (calculate_atr c_high c_low c_close
                           (map slide_candle (seq 0 5)) 3) 1 = Some None /\
  exists v, nth_error (calculate_atr c_high c_low c_close
                                     (map slide_candle (seq 0 5)) 3) 3
            = Some (Some v) /\ v == 2.
Proof.
  assert (Hp : (0 < 3)%nat) by lia.
  destruct (calculate_atr_trailing_mean
              c_high c_low c_close (map slide_candle (seq 0 5)) 3 Hp)
    as [_ H].
  split; [exact Hp|]. split.
  - rewrite (H 1%nat) by (simpl; lia). reflexivity.
  - eexists. split; [apply (H 3%nat); simpl; lia|]. vm_compute. reflexivity.
Defined.

Lemma calculate_atr_nonneg_witness :
  (3 <= 3)%nat /\
  exists v, nth_error (calculate_atr c_high c_low c_close
                                     (map slide_candle (seq 0 5)) 3) 3
            = Some (Some v) /\ 0 <= v.
Proof.
  split; [lia|].
  apply (calculate_atr_nonneg
           c_high c_low c_close (map slide_candle (seq 0 5)) 3 3);
    [lia | simpl; lia | lia | left; lia].
Defined.

Lemma calculate_ema_within_closes_witness :
  Forall (fun x => 10 <= x <= 12) three_closes /\
  exists ema, calculate_ema three_closes 2 = Some ema /\
              Forall (fun y => 10 <= y <= 12) ema.
Proof.
  assert (H : Forall (fun x => 10 <= x <= 12) three_closes)
    by (repeat constructor; discriminate).
  split; [exact H|].
  destruct (calculate_ema_within_closes three_closes 2 10 12) as
    [ema [E [_ [_ Hb]]]]; [lia | exact H |].
  exists ema. split; assumption.
Defined.

Lemma calculate_rsi_range_witness :
  exists v, nth_error (calculate_rsi rising 3) 4 = Some (Some v)
            /\ 0 <= v < 100.
Proof.
  destruct (nth_error (calculate_rsi rising 3) 4) as [[v|]|] eqn:E;
    try (vm_compute in E; discriminate).
  exists v. split; [reflexivity|].
  apply (calculate_rsi_range rising 3 4 v); [lia | exact E].
Defined.

Lemma calculate_rsi_no_losses_witness :
  (forall k, (S k < length climbing)%nat ->
             nth k climbing 0 <= nth (S k) climbing 0) /\
  nth_error (calculate_rsi climbing 2) 3 = Some None.
Proof.
  assert (H : forall k, (S k < length climbing)%nat ->
                        nth k climbing 0 <= nth (S k) climbing 0).
  { intros k Hk.
    do 3 (destruct k as [|k]; [simpl; discriminate|]).
    simpl in Hk. lia. }
  split; [exact H|].
  apply (calculate_rsi_no_losses climbing 2 3); [lia | simpl; lia | exact H].
Defined.

Lemma pivots_apart_witness :
  find_pivot_high twin_peaks 1 1 = Some true /\
  find_pivot_high twin_peaks 3 1 = Some true /\
  (Z.of_nat 1 < Z.abs (3 - 1))%Z.
Proof.
  assert (H1 : find_pivot_high twin_peaks 1 1 = Some true) by reflexivity.
  assert (H3 : find_pivot_high twin_peaks 3 1 = Some true) by reflexivity.
  split; [exact H1|]. split; [exact H3|].
  refine (proj1 (pivots_more_than_lookback_apart twin_peaks 1 3 1 _) H1 H3).
  discriminate.
Defined.

Lemma every_bar_is_pivot_witness :
  (0 <= 2 < len peak_then_tie)%Z /\
  find_pivot_high peak_then_tie 2 0 = Some true /\
  find_pivot_low peak_then_tie 2 0 = Some true.
Proof.
  assert (H : (0 <= 2 < len peak_then_tie)%Z) by (vm_compute; split; congruence).
  split; [exact H|].
  apply (every_bar_is_pivot_at_lookback_zero peak_then_tie 2 H).
Defined.

End IndicatorInstances.

Section DetectorInstances.
Import Py Config SignalDetector Vocabulary Samples MoreSamples.
Open Scope Q_scope.

Lemma confidence_band_witness :
  iloc (market falling 110) 106 = Some (trough_row 106 95 30) /\
  ~ 10 == 0 /\
  15 # 100 <= calculate_confidence (market falling 110) 106 true <= 88 # 100.
Proof.
  assert (Hr : iloc (market falling 110) 106 = Some (trough_row 106 95 30))
    by (vm_compute; reflexivity).
  assert (Hnz : ~ 10 == 0) by discriminate.
  split; [exact Hr|]. split; [exact Hnz|].
  apply (confidence_between_015_and_088
           (market falling 110) 106 true (trough_row 106 95 30) 30 10 Hr
           eq_refl eq_refl Hnz).
Defined.

Lemma falling_emits :
  detect_signal CONFIG (market falling 110) (after falling 109)
  = Some (Some falling_signal, after falling 110).
Proof. vm_compute. reflexivity. Qed.

Lemma emitted_signal_sound_witness :
  exists r prev x,
    iloc (market falling 110) (candidate CONFIG (market falling 110)) = Some r /\
    In prev (recent_pivots (after falling 109)) /\
    rsi r = Some x /\
    (8 <= s_bars_between falling_signal)%Z /\
    MIN_CONFIDENCE CONFIG <= s_confidence falling_signal.
Proof.
  destruct (emitted_signal_sound CONFIG _ _ _ _ falling_emits)
    as (r & prev & x & y & b & Hr & Hx & Hin & _ & _ & _ & _ & _ & _
        & [H8 _] & [Hmin _] & _).
  exists r, prev, x. repeat split; assumption.
Defined.

Lemma emitted_signal_has_atr_witness :
  0 < MIN_CONFIDENCE CONFIG /\
  exists a, s_atr falling_signal = Some a /\ ~ a == 0.
Proof.
  assert (Hmin : 0 < MIN_CONFIDENCE CONFIG) by reflexivity.
  split; [exact Hmin|].
  apply (emitted_signal_has_atr CONFIG _ _ _ _ Hmin falling_emits).
Defined.

Lemma no_signal_above_088_witness :
  88 # 100 < MIN_CONFIDENCE strict_config /\
  exists self',
    detect_signal strict_config (market falling 110) (after falling 109)
    = Some (None, self').
Proof.
  assert (Hmin : 88 # 100 < MIN_CONFIDENCE strict_config) by reflexivity.
  split; [exact Hmin|].
  destruct (detect_signal strict_config (market falling 110)
                          (after falling 109)) as [[out self']|] eqn:E;
    [|vm_compute in E; discriminate].
  rewrite (no_signal_above_088 strict_config _ _ out self' Hmin E).
  exists self'. reflexivity.
Defined.

Lemma repoll_witness :
  detect_signal CONFIG (market falling 100) init
  = Some (None, after falling 100) /\
  exists self2 older pivot,
    detect_signal CONFIG (market falling 100) (after falling 100)
    = Some (None, self2) /\
    recent_pivots self2 = older ++ [pivot; pivot].
Proof.
  assert (E : detect_signal CONFIG (market falling 100) init
              = Some (None, after falling 100)) by (vm_compute; reflexivity).
  split; [exact E|].
  destruct (repoll_duplicates_pivot CONFIG _ _ _ E)
    as [self2 [E2 [_ [[Hsame _] | [older [pivot [_ [_ Hw]]]]]]]].
  - vm_compute in Hsame. discriminate.
  - exists self2, older, pivot. split; assumption.
Defined.

End DetectorInstances.

Section CollectorInstances.
Import Py LiveDataCollector CollectorVocabulary CollectorSamples MoreSamples.

Lemma feed_keeps_consistent_witness :
  consistent init /\ consistent (feed init nine_bars) /\
  exists w,
    current_candle (feed init nine_bars) = Some w /\
    candle_start (feed init nine_bars) = Some (w_timestamp w).
Proof.
  assert (H : consistent init) by exact I.
  split; [exact H|].
  destruct (feed_keeps_consistent init nine_bars H) as [Hc Hw].
  split; [exact Hc|].
  destruct Hw as [w [Hw [Hs _]]]; [discriminate|].
  exists w. split; assumption.
Defined.

Lemma nine_bars_ok : Forall bar_ok nine_bars.
Proof. repeat constructor; discriminate. Qed.

Lemma candles_enclose_witness :
  Forall bar_ok nine_bars /\
  Forall candle_ok (candles (feed init nine_bars)).
Proof.
  split; [exact nine_bars_ok|].
  exact (proj1 (candles_enclose_open_and_close
                  init nine_bars nine_bars_ok (Forall_nil _) I)).
Defined.

Lemma nine_bars_spaced : evenly_spaced 0 60 nine_bars.
Proof.
  intros i b H.
  do 9 (destruct i as [|i]; [injection H as <-; reflexivity|]).
  destruct i; discriminate.
Qed.

Lemma regular_feed_witness :
  4 * 60 < interval init /\
  length (candles (feed init nine_bars)) = 2%nat.
Proof.
  split; [reflexivity|].
  rewrite (regular_feed_candle_count 0 60 init nine_bars eq_refl);
    [reflexivity | discriminate | reflexivity | discriminate
     | exact nine_bars_spaced].
Defined.

End CollectorInstances.

Section TraderInstances.
Import Py Config SignalDetector LiveTrader TraderVocabulary TraderSamples
       LoopSamples.
Open Scope Q_scope.

Lemma atr50_plan :
  exists plan,
    calculate_order_details CONFIG 10000 atr50_signal 30000 = Some plan.
Proof. eexists. vm_compute. reflexivity. Qed.

Lemma plan_levels_witness :
  exists plan,
    calculate_order_details CONFIG 10000 atr50_signal 30000 = Some plan /\
    side plan = BUY /\ stop plan < entry plan /\ entry plan < target_1 plan.
Proof.
  destruct (calculate_order_details CONFIG 10000 atr50_signal 30000)
    as [plan|] eqn:E; [|vm_compute in E; discriminate].
  exists plan. split; [reflexivity|].
  destruct (plan_levels_ordered CONFIG 10000 atr50_signal 50 30000 plan
              eq_refl eq_refl eq_refl eq_refl eq_refl eq_refl E)
    as [[_ [Hs [H1 [H2 _]]]] | [Hb _]]; [auto | discriminate].
Defined.

Lemma plan_profit_witness :
  exists plan,
    calculate_order_details CONFIG 10000 atr50_signal 30000 = Some plan /\
    potential_profit_t1 plan == risk_dollars plan * (15 # 10).
Proof.
  destruct (calculate_order_details CONFIG 10000 atr50_signal 30000)
    as [plan|] eqn:E; [|vm_compute in E; discriminate].
  exists plan. split; [reflexivity|].
  destruct (plan_profit_is_r_multiple CONFIG 10000 atr50_signal 50 30000 plan
              eq_refl E) as [_ [H1 _]].
  rewrite H1. reflexivity.
Defined.


Lemma plan_risk_witness :
  exists plan,
    calculate_order_details CONFIG 10000 atr50_signal 30000 = Some plan /\
    Qabs (risk_dollars plan - 10000 * RISK_PER_TRADE CONFIG / 30000)
    <= (5 # 10000000) * stop_distance plan.
Proof.
  destruct (calculate_order_details CONFIG 10000 atr50_signal 30000)
    as [plan|] eqn:E; [|vm_compute in E; discriminate].
  exists plan. split; [reflexivity|].
  apply (plan_risk_is_budget_over_entry CONFIG 10000 atr50_signal 50 30000
           plan eq_refl eq_refl E).
Defined.

Lemma one_order_witness :
  exists plan self2,
    calculate_order_details CONFIG 10000 atr50_signal 30000 = Some plan /\
    execute_all slide_trader_100
                [(None, plan); (Some 7%Z, plan); (Some 8%Z, plan)]
    = (self2,
       [Some {| rq_qty := qty plan; rq_side := BUY |};
        Some {| rq_qty := qty plan; rq_side := BUY |};
        None]) /\
    option_map pos_order_id (open_position self2) = Some 7%Z.
Proof.
  destruct (calculate_order_details CONFIG 10000 atr50_signal 30000)
    as [plan|] eqn:E; [|vm_compute in E; discriminate].
  assert (Hb : is_bullish plan = true).
  { destruct (plan_fields CONFIG 10000 atr50_signal 50 30000 plan eq_refl E)
      as (_ & _ & _ & _ & _ & _ & Hb & _). exact Hb. }
  destruct (one_order_per_run slide_trader_100 [(None, plan)] 7 plan
              [(Some 8%Z, plan)] slide_trader_100
              [Some {| rq_qty := qty plan;
                       rq_side := if is_bullish plan then BUY else SELL |}]
              eq_refl eq_refl) as [self2 [H2 Hp]].
  exists plan, self2. split; [reflexivity|].
  rewrite Hb in H2. split; [exact H2|]. rewrite Hp. reflexivity.
Defined.

Lemma submitted_order_witness :
  on_new_candle CONFIG live_settings (Some 10000) (Some 7%Z)
                slide_trader_110 = (slide_trader_after, Some slide_request) /\
  0 < rq_qty slide_request /\
  data_collector slide_trader_after = slide_collector 110 /\
  exists p, open_position slide_trader_after = Some p /\
            pos_order_id p = 7%Z /\ pos_qty p = rq_qty slide_request.
Proof.
  assert (E : on_new_candle CONFIG live_settings (Some 10000) (Some 7%Z)
                            slide_trader_110
              = (slide_trader_after, Some slide_request))
    by (vm_compute; reflexivity).
  split; [exact E|].
  destruct (submitted_order_sound _ _ _ _ _ _ _ E)
    as (_ & _ & _ & _ & Hq & Hc & p & Hp & Hid & Hqty & _).
  split; [exact Hq|]. split; [exact Hc|].
  exists p. split; [exact Hp|]. split; assumption.
Defined.

Lemma pipeline_witness :
  augment live_settings (LiveDataCollector.candles (slide_collector 110))
  = Some slide_frame /\
  detect_signal CONFIG slide_frame slide_detector
  = Some (Some slide_signal, slide_detector_after) /\
  exists a, s_atr slide_signal = Some a /\ 0 < a.
Proof.
  assert (Edf : augment live_settings
                  (LiveDataCollector.candles (slide_collector 110))
                = Some slide_frame) by (vm_compute; reflexivity).
  assert (E : detect_signal CONFIG slide_frame slide_detector
              = Some (Some slide_signal, slide_detector_after))
    by (vm_compute; reflexivity).
  assert (Hmin : 0 < MIN_CONFIDENCE CONFIG) by reflexivity.
  assert (Hp : (0 < ATR_PERIOD live_settings)%nat) by (simpl; lia).
  split; [exact Edf|]. split; [exact E|].
  destruct (pipeline_stop_distance CONFIG live_settings _ _ _ _ _
              Edf E Hmin Hp) as [a [Ha [Hpos _]]];
    [left; simpl; lia|].
  exists a. split; assumption.
Defined.

End TraderInstances.
